(** * GrassAutomation: rate limiter, IP rotation, check-in cycle and stats

    A shallow embedding of the [GrassAutomation] class of [src/main.js].

    The object's mutable fields and the part of the outside world the
    class reads or writes (wall clock, stats file, outgoing HTTP requests)
    form one record, [World].  A method is a function from [World] to a
    JavaScript completion (normal return or thrown error) and a new
    [World]; mutations made before a [throw] are kept, as in JavaScript.
    What the outside world answers (HTTP replies, timer overshoot) is an
    explicit argument of the method that asks for it.

    Conventions:
    - numbers are integers ([Z]); millisecond timestamps and counters stay
      far below 2^53, where JavaScript arithmetic on them is exact;
    - [this.log] only writes to the console and the log file; it touches
      no field of the object and is taken not to throw, as the class
      itself assumes by calling it inside its [catch] blocks;
    - [lastCheckin] holds [null] or an ISO string; it is kept as the
      instant the string denotes (ms since the epoch), the value that
      [new Date(s).getTime()] gives back for a string made by
      [toISOString]. *)

From Stdlib Require Import ZArith QArith List String Bool Lia Sorted.
Import ListNotations.
Local Open Scope Z_scope.

(** ** Data *)

(** [this.stats] *)
Record Stats := mkStats {
  totalCheckins : Z;
  successfulCheckins : Z;
  failedCheckins : Z;
  lastCheckin : option Z;
  totalPoints : Z;
  uptimeHours : Z;
  ipRotations : Z
}.

(** The record both branches of [loadStats] build when nothing is read. *)
Definition defaultStats : Stats :=
  mkStats 0 0 0 None 0 0 0.

(** [this.rateLimiter] *)
Record RateLimiter := mkRateLimiter {
  lastRequest : Z;
  minInterval : Z;
  requestsPerMinute : Z;
  requestCount : Z;
  minuteStart : Z
}.

(** The limiter the constructor builds at time [now]. *)
Definition newRateLimiter (now : Z) : RateLimiter :=
  mkRateLimiter 0 30000 3 0 now.

(** What a file read by [readFileSync] can hold: text that [JSON.parse]
    rejects, or text that parses to a stats record. *)
Inductive Text :=
| Garbled
| Json (s : Stats).

(** [stats.json] on disk. [Unreadable]: the path exists but reading it
    throws (a directory, no permission). *)
Inductive File :=
| Missing
| Unreadable
| Content (t : Text).

(** An element of the [activeIps] array; [ipAddress] may be undefined. *)
Record IpEntry := mkIpEntry { entry_ipAddress : option string }.

Inductive Method := GET | POST.

(** [/retrieveUser], [/retrieveDevice], [/activeIps] on the API host and
    [/checkin] on the director host. *)
Inductive Endpoint := RetrieveUser | RetrieveDevice | ActiveIps | Checkin.

(** The fields of the check-in token payload that depend on the state. *)
Record Token := mkToken {
  aud : option string;
  exp : Z;
  nbf : Z;
  iat : Z;
  jti : Z
}.

Record Request := mkRequest {
  req_method : Method;
  req_endpoint : Endpoint;
  req_token : option Token
}.

Record World := mkWorld {
  ipAddress : option string;            (* this.config.ipAddress *)
  stats : Stats;                        (* this.stats *)
  rateLimiter : RateLimiter;            (* this.rateLimiter *)
  availableIps : option (list (option string)); (* this.availableIps *)
  clock : Z;                            (* what Date.now() reads *)
  statsFile : File;                     (* this.statsFile on disk *)
  fsWritable : bool;                    (* does writeFileSync succeed *)
  wire : list Request                   (* requests handed to cloudscraper *)
}.

(** ** JavaScript completions and the method monad *)

(** A thrown value: [error.response?.status] and [error.message]. *)
Record Error := mkError {
  status : option Z;
  message : string
}.

Inductive Result (A : Type) :=
| Ret (a : A)
| Throw (e : Error).
Arguments Ret {A} a.
Arguments Throw {A} e.

Definition M (A : Type) : Type := World -> Result A * World.

Definition ret {A} (a : A) : M A := fun w => (Ret a, w).

Definition throw {A} (e : Error) : M A := fun w => (Throw e, w).

Definition bind {A B} (c : M A) (k : A -> M B) : M B :=
  fun w =>
    match c w with
    | (Ret a, w') => k a w'
    | (Throw e, w') => (Throw e, w')
    end.

(** [try { c } catch (error) { h error }] *)
Definition try_catch {A} (c : M A) (h : Error -> M A) : M A :=
  fun w =>
    match c w with
    | (Ret a, w') => (Ret a, w')
    | (Throw e, w') => h e w'
    end.

Definition get : M World := fun w => (Ret w, w).

Definition modify (f : World -> World) : M unit := fun w => (Ret tt, f w).

Declare Scope js_scope.
Delimit Scope js_scope with js.
Notation "x <- c ;; k" := (bind c (fun x => k))
  (at level 61, c at next level, right associativity) : js_scope.
Notation "c ;; k" := (bind c (fun _ => k))
  (at level 61, right associativity) : js_scope.
Local Open Scope js_scope.

Definition when (b : bool) (c : M unit) : M unit :=
  if b then c else ret tt.

(** ** Field updates *)

Definition with_ipAddress (v : option string) (w : World) : World :=
  mkWorld v (stats w) (rateLimiter w) (availableIps w) (clock w)
          (statsFile w) (fsWritable w) (wire w).

Definition with_stats (v : Stats) (w : World) : World :=
  mkWorld (ipAddress w) v (rateLimiter w) (availableIps w) (clock w)
          (statsFile w) (fsWritable w) (wire w).

Definition with_rateLimiter (v : RateLimiter) (w : World) : World :=
  mkWorld (ipAddress w) (stats w) v (availableIps w) (clock w)
          (statsFile w) (fsWritable w) (wire w).

Definition with_availableIps (v : option (list (option string))) (w : World)
  : World :=
  mkWorld (ipAddress w) (stats w) (rateLimiter w) v (clock w)
          (statsFile w) (fsWritable w) (wire w).

Definition with_clock (v : Z) (w : World) : World :=
  mkWorld (ipAddress w) (stats w) (rateLimiter w) (availableIps w) v
          (statsFile w) (fsWritable w) (wire w).

Definition with_statsFile (v : File) (w : World) : World :=
  mkWorld (ipAddress w) (stats w) (rateLimiter w) (availableIps w) (clock w)
          v (fsWritable w) (wire w).

Definition with_wire (v : list Request) (w : World) : World :=
  mkWorld (ipAddress w) (stats w) (rateLimiter w) (availableIps w) (clock w)
          (statsFile w) (fsWritable w) v.

Definition set_requestCount (v : Z) (r : RateLimiter) : RateLimiter :=
  mkRateLimiter (lastRequest r) (minInterval r) (requestsPerMinute r) v
                (minuteStart r).

Definition set_minuteStart (v : Z) (r : RateLimiter) : RateLimiter :=
  mkRateLimiter (lastRequest r) (minInterval r) (requestsPerMinute r)
                (requestCount r) v.

Definition set_lastRequest (v : Z) (r : RateLimiter) : RateLimiter :=
  mkRateLimiter v (minInterval r) (requestsPerMinute r) (requestCount r)
                (minuteStart r).

Definition set_totalCheckins (v : Z) (s : Stats) : Stats :=
  mkStats v (successfulCheckins s) (failedCheckins s) (lastCheckin s)
          (totalPoints s) (uptimeHours s) (ipRotations s).

Definition set_successfulCheckins (v : Z) (s : Stats) : Stats :=
  mkStats (totalCheckins s) v (failedCheckins s) (lastCheckin s)
          (totalPoints s) (uptimeHours s) (ipRotations s).

Definition set_failedCheckins (v : Z) (s : Stats) : Stats :=
  mkStats (totalCheckins s) (successfulCheckins s) v (lastCheckin s)
          (totalPoints s) (uptimeHours s) (ipRotations s).

Definition set_lastCheckin (v : option Z) (s : Stats) : Stats :=
  mkStats (totalCheckins s) (successfulCheckins s) (failedCheckins s) v
          (totalPoints s) (uptimeHours s) (ipRotations s).

Definition set_totalPoints (v : Z) (s : Stats) : Stats :=
  mkStats (totalCheckins s) (successfulCheckins s) (failedCheckins s)
          (lastCheckin s) v (uptimeHours s) (ipRotations s).

Definition set_uptimeHours (v : Z) (s : Stats) : Stats :=
  mkStats (totalCheckins s) (successfulCheckins s) (failedCheckins s)
          (lastCheckin s) (totalPoints s) v (ipRotations s).

Definition set_ipRotations (v : Z) (s : Stats) : Stats :=
  mkStats (totalCheckins s) (successfulCheckins s) (failedCheckins s)
          (lastCheckin s) (totalPoints s) (uptimeHours s) v.

(** [this.rateLimiter.f = ...] and [this.stats.f = ...] *)
Definition update_limiter (f : RateLimiter -> RateLimiter) : M unit :=
  modify (fun w => with_rateLimiter (f (rateLimiter w)) w).

Definition update_stats (f : Stats -> Stats) : M unit :=
  modify (fun w => with_stats (f (stats w)) w).

(** ** Logging, clock and timers *)

Inductive Level := error | warn | info | debug.

Definition log (l : Level) (msg : string) : M unit := ret tt.

Definition Date_now : M Z := fun w => (Ret (clock w), w).

(** [await this.sleep(ms)]: the timer fires no earlier than [ms] from now
    (a negative delay counts as none) and [over] later than that. *)
Definition sleep (ms over : Z) : M unit :=
  modify (fun w => with_clock (clock w + Z.max 0 ms + over) w).

(** How late the two timers of one [waitForRateLimit] call fire. *)
Record Delays := mkDelays {
  over_quota : Z;
  over_interval : Z
}.

(** ** Rate limiter (lines 114-141) *)

Definition waitForRateLimit (d : Delays) : M unit :=
  now <- Date_now ;;
  w <- get ;;
  when (60000 <? now - minuteStart (rateLimiter w))
       (update_limiter (set_requestCount 0) ;;
        update_limiter (set_minuteStart now)) ;;
  w <- get ;;
  when (requestsPerMinute (rateLimiter w) <=? requestCount (rateLimiter w))
       (let waitTime := 60000 - (now - minuteStart (rateLimiter w)) in
        log warn "Rate limit reached, waiting" ;;
        sleep waitTime (over_quota d) ;;
        update_limiter (set_requestCount 0) ;;
        t <- Date_now ;;
        update_limiter (set_minuteStart t)) ;;
  w <- get ;;
  let timeSinceLast := now - lastRequest (rateLimiter w) in
  when (timeSinceLast <? minInterval (rateLimiter w))
       (let waitTime := minInterval (rateLimiter w) - timeSinceLast in
        sleep waitTime (over_interval d)) ;;
  t <- Date_now ;;
  update_limiter (set_lastRequest t) ;;
  update_limiter (fun r => set_requestCount (requestCount r + 1) r).

(** A run of [acquire] calls: before each call the clock moves on by a
    gap, then the call runs with its timer overshoots.  The result lists
    [rateLimiter.lastRequest] as each call leaves it. *)
Definition Arrival : Type := Z * Delays.

Definition elapse (gap : Z) (w : World) : World :=
  with_clock (clock w + gap) w.

Fixpoint acquires (arrs : list Arrival) (w : World) : list Z * World :=
  match arrs with
  | [] => ([], w)
  | (gap, d) :: rest =>
      let w1 := snd (waitForRateLimit d (elapse gap w)) in
      let (ts, w2) := acquires rest w1 in
      (lastRequest (rateLimiter w1) :: ts, w2)
  end.



(** The limiter carries the constructor's constants. *)
Definition configured (w : World) : Prop :=
  minInterval (rateLimiter w) = 30000 /\
  requestsPerMinute (rateLimiter w) = 3.


(** A freshly constructed object at time [now]. *)
Definition newWorld (now : Z) (ip : option string) (f : File) (rw : bool)
  : World :=
  mkWorld ip defaultStats (newRateLimiter now) None now f rw [].

(** ** Stats file (lines 76-111) *)

Definition existsSync : M bool :=
  fun w => (Ret (match statsFile w with Missing => false | _ => true end), w).

Definition readFileSync : M Text :=
  fun w =>
    match statsFile w with
    | Content t => (Ret t, w)
    | _ => (Throw (mkError None "EACCES: permission denied, open"), w)
    end.

Definition JSON_parse (t : Text) : M Stats :=
  match t with
  | Json s => ret s
  | Garbled => throw (mkError None "Unexpected token in JSON")
  end.

Definition JSON_stringify (s : Stats) : Text := Json s.

Definition writeFileSync (t : Text) : M unit :=
  fun w =>
    if fsWritable w then (Ret tt, with_statsFile (Content t) w)
    else (Throw (mkError None "ENOSPC: no space left on device, write"), w).

Definition loadStats : M unit :=
  try_catch
    (present <- existsSync ;;
     if present
     then (t <- readFileSync ;;
           s <- JSON_parse t ;;
           update_stats (fun _ => s))
     else update_stats (fun _ => mkStats 0 0 0 None 0 0 0))
    (fun e =>
       log error "Failed to load stats" ;;
       update_stats (fun _ => mkStats 0 0 0 None 0 0 0)).

Definition saveStats : M unit :=
  try_catch
    (w <- get ;;
     writeFileSync (JSON_stringify (stats w)))
    (fun e => log error "Failed to save stats").

(** [initialize], run by the constructor. *)
Definition initialize : M unit :=
  log info "Grass Automation Initialized" ;;
  loadStats.

(** ** HTTP (lines 144-218) *)

(** The outcome of one cloudscraper call. *)
Inductive Reply (B : Type) :=
| Ok (body : B)
| Fail (e : Error).
Arguments Ok {B} body.
Arguments Fail {B} e.

(** One request as the outside world treats it: how late the limiter's
    timers fire, how long the call takes, and what comes back. *)
Record Exchange (B : Type) := mkExchange {
  delays : Delays;
  latency : Z;
  reply : Reply B
}.
Arguments mkExchange {B} delays latency reply.
Arguments delays {B} e.
Arguments latency {B} e.
Arguments reply {B} e.

(** A response body of the API host, read through
    [response.result?.data]. *)
Record Envelope (D : Type) := mkEnvelope { result_data : option D }.
Arguments mkEnvelope {D} result_data.
Arguments result_data {D} e.

Definition cloudscraper {B} (r : Request) (x : Exchange B) : M B :=
  fun w =>
    let w' := with_clock (clock w + latency x) (with_wire (wire w ++ [r]) w) in
    match reply x with
    | Ok b => (Ret b, w')
    | Fail e => (Throw e, w')
    end.

Definition makeRequest {B} (m : Method) (ep : Endpoint) (tok : option Token)
    (x : Exchange B) : M B :=
  waitForRateLimit (delays x) ;;
  try_catch
    (log debug "Making request" ;;
     response <- cloudscraper (mkRequest m ep tok) x ;;
     ret response)
    (fun e =>
       log error "Request failed" ;;
       throw e).

Record Profile := mkProfile { profile_totalPoints : option Z }.

Record DeviceStatus := mkDeviceStatus {
  isConnected : bool;
  totalUptime : option Z
}.

Definition getUserProfile (x : Exchange (Envelope Profile))
  : M (option Profile) :=
  try_catch
    (response <- makeRequest GET RetrieveUser None x ;;
     log info "User profile retrieved" ;;
     ret (result_data response))
    (fun e =>
       log error "Failed to get user profile" ;;
       ret None).

Definition getDeviceStatus (x : Exchange (Envelope DeviceStatus))
  : M (option DeviceStatus) :=
  try_catch
    (response <- makeRequest GET RetrieveDevice None x ;;
     log info "Device status retrieved" ;;
     ret (result_data response))
    (fun e =>
       log error "Failed to get device status" ;;
       ret None).

Definition getActiveIps (x : Exchange (Envelope (list IpEntry)))
  : M (option (list IpEntry)) :=
  try_catch
    (response <- makeRequest GET ActiveIps None x ;;
     log info "Active IPs retrieved" ;;
     match result_data response with
     | Some data =>
         modify (with_availableIps (Some (map entry_ipAddress data))) ;;
         log debug "Available IPs"
     | None => ret tt
     end ;;
     ret (result_data response))
    (fun e =>
       log error "Failed to get active IPs" ;;
       ret None).

(** ** IP rotation (lines 220-238) *)

(** [a !== b] on values that are a string or undefined. *)
Definition strict_neq (a b : option string) : bool :=
  match a, b with
  | Some s, Some t => negb (String.eqb s t)
  | None, None => false
  | _, _ => true
  end.

(** [if (v)] on a string or undefined: the empty string is false too. *)
Definition truthy_string (v : option string) : bool :=
  match v with
  | Some s => negb (String.eqb s "")
  | None => false
  end.

(** [activeIps.find(ip => ip.ipAddress !== current)?.ipAddress] *)
Definition newIp_of (activeIps : list IpEntry) (current : option string)
  : option string :=
  match find (fun ip => strict_neq (entry_ipAddress ip) current) activeIps with
  | Some ip => entry_ipAddress ip
  | None => None
  end.

Definition rotateIp (x : Exchange (Envelope (list IpEntry))) : M bool :=
  try_catch
    (activeIps <- getActiveIps x ;;
     match activeIps with
     | Some l =>
         if (1 <? Z.of_nat (List.length l))
         then
           (w <- get ;;
            let newIp := newIp_of l (ipAddress w) in
            if truthy_string newIp
            then
              (modify (with_ipAddress newIp) ;;
               update_stats (fun s => set_ipRotations (ipRotations s + 1) s) ;;
               log info "IP rotated" ;;
               ret true)
            else ret false)
         else ret false
     | None => ret false
     end)
    (fun e =>
       log error "Failed to rotate IP" ;;
       ret false).

(** ** Check-in (lines 240-307) *)

Record CheckinBody := mkCheckinBody { points : option Z }.

(** [btoa(JSON.stringify(payload))]: [btoa] throws when the serialised
    payload has a character outside Latin-1; [latin1] says it has none. *)
Definition generateCheckinToken (latin1 : bool) : M Token :=
  now <- Date_now ;;
  w <- get ;;
  if latin1
  then ret (mkToken (ipAddress w) (now / 1000 + 300) (now / 1000)
                    (now / 1000) now)
  else throw (mkError None "Invalid character").

(** [haystack.includes(needle)] *)
Definition includes (needle haystack : string) : bool :=
  match String.index 0 needle haystack with
  | Some _ => true
  | None => false
  end.

(** [error.response?.status === 429 || error.message.includes('rate limit')] *)
Definition rateLimited (e : Error) : bool :=
  match status e with
  | Some c => (c =? 429) || includes "rate limit" (message e)
  | None => includes "rate limit" (message e)
  end.

(** [response && response.points]: a present body with a nonzero number. *)
Definition truthy_number (v : option Z) : bool :=
  match v with
  | Some n => negb (n =? 0)
  | None => false
  end.

Definition number_of (v : option Z) : Z :=
  match v with
  | Some n => n
  | None => 0
  end.

(** What the outside world does during one [checkIn]. *)
Record CheckinEnv := mkCheckinEnv {
  latin1 : bool;
  post : Exchange (option CheckinBody);
  rotation : Exchange (Envelope (list IpEntry))
}.

(** The [catch] block of [checkIn] (lines 271-283). *)
Definition checkIn_catch (env : CheckinEnv) (e : Error)
  : M (option CheckinBody) :=
  update_stats (fun s => set_failedCheckins (failedCheckins s + 1) s) ;;
  saveStats ;;
  when (rateLimited e)
       (log warn "Rate limited, rotating IP..." ;;
        _ <- rotateIp (rotation env) ;;
        ret tt) ;;
  log error "Check-in failed" ;;
  ret None.

Definition checkIn (env : CheckinEnv) : M (option CheckinBody) :=
  try_catch
    (update_stats (fun s => set_totalCheckins (totalCheckins s + 1) s) ;;
     checkinToken <- generateCheckinToken (latin1 env) ;;
     response <- makeRequest POST Checkin (Some checkinToken) (post env) ;;
     update_stats
       (fun s => set_successfulCheckins (successfulCheckins s + 1) s) ;;
     now <- Date_now ;;
     update_stats (set_lastCheckin (Some now)) ;;
     log info "Check-in successful" ;;
     match response with
     | Some body =>
         when (truthy_number (points body))
              (update_stats
                 (fun s => set_totalPoints
                             (totalPoints s + number_of (points body)) s))
     | None => ret tt
     end ;;
     saveStats ;;
     ret response)
    (checkIn_catch env).

(** ** Monitoring cycle (lines 309-354) *)

(** [new Date(this.stats.lastCheckin).getTime()]; [new Date(null)] is the
    epoch. *)
Definition lastCheckinTime (s : Stats) : Z :=
  match lastCheckin s with
  | Some t => t
  | None => 0
  end.

(** The [hoursSinceLastRotation] constant of step 3. *)
Definition hoursSinceLastRotation (now : Z) (s : Stats) : Q :=
  if 0 <? ipRotations s
  then (inject_Z (now - lastCheckinTime s) / inject_Z 3600000)%Q
  else inject_Z 24.

(** What the outside world does during one cycle. *)
Record CycleEnv := mkCycleEnv {
  device : Exchange (Envelope DeviceStatus);
  active : Exchange (Envelope (list IpEntry));
  scheduled : Exchange (Envelope (list IpEntry));
  checkin : CheckinEnv;
  profile : Exchange (Envelope Profile)
}.

(** 1. Check device status *)
Definition fetchStatus (x : Exchange (Envelope DeviceStatus)) : M unit :=
  deviceStatus <- getDeviceStatus x ;;
  match deviceStatus with
  | Some d =>
      when (negb (isConnected d))
           (log warn "Device disconnected, attempting recovery...") ;;
      when (truthy_number (totalUptime d))
           (update_stats
              (set_uptimeHours (number_of (totalUptime d) / 3600000)))
  | None => ret tt
  end.

(** 2. Check active IPs *)
Definition refreshIps (x : Exchange (Envelope (list IpEntry))) : M unit :=
  _ <- getActiveIps x ;;
  ret tt.

(** 3. Rotate IP every 12 hours *)
Definition maintainIp (x : Exchange (Envelope (list IpEntry))) : M unit :=
  now <- Date_now ;;
  w <- get ;;
  let hours := hoursSinceLastRotation now (stats w) in
  when (Qle_bool (inject_Z 12) hours)
       (_ <- rotateIp x ;;
        ret tt).

(** 5. Update user profile *)
Definition syncProfile (x : Exchange (Envelope Profile)) : M unit :=
  userProfile <- getUserProfile x ;;
  match userProfile with
  | Some p =>
      when (truthy_number (profile_totalPoints p))
           (update_stats (set_totalPoints (number_of (profile_totalPoints p))))
  | None => ret tt
  end.

Definition monitorAndMaintain (env : CycleEnv) : M unit :=
  try_catch
    (log info "Starting monitoring cycle" ;;
     fetchStatus (device env) ;;
     refreshIps (active env) ;;
     maintainIp (scheduled env) ;;
     _ <- checkIn (checkin env) ;;
     syncProfile (profile env) ;;
     saveStats ;;
     log info "Monitoring cycle completed")
    (fun e => log error "Monitoring cycle failed").

(** The world as the cycle finds it when it reaches a given step. *)
Definition before_maintainIp (env : CycleEnv) (w : World) : World :=
  snd ((fetchStatus (device env) ;; refreshIps (active env)) w).

Definition before_checkIn (env : CycleEnv) (w : World) : World :=
  snd (maintainIp (scheduled env) (before_maintainIp env w)).

Definition before_syncProfile (env : CycleEnv) (w : World) : World :=
  snd (checkIn (checkin env) (before_checkIn env w)).

(** Requests sent between two worlds of one run. *)
Definition sent_since (w w' : World) : list Request :=
  skipn (List.length (wire w)) (wire w').

Definition is_activeIps (r : Request) : bool :=
  match req_method r, req_endpoint r with
  | GET, ActiveIps => true
  | _, _ => false
  end.

(** Rotation attempts among some requests: [rotateIp] is the one caller
    of [getActiveIps] inside [checkIn] and inside step 3, and each call
    sends one [GET /activeIps]. *)
Definition rotation_attempts (rs : list Request) : nat :=
  List.length (filter is_activeIps rs).

(** ** Vocabulary of the statements *)


(** A step that left configuration, stats and disk as they were. *)
Definition quiet (w w' : World) : Prop :=
  ipAddress w' = ipAddress w /\
  stats w' = stats w /\
  statsFile w' = statsFile w /\
  fsWritable w' = fsWritable w.

(** The completion [await cloudscraper(...)] gives for a reply. *)
Definition completion {B} (r : Reply B) : Result B :=
  match r with
  | Ok b => Ret b
  | Fail e => Throw e
  end.

(** What the three [get...] wrappers return for a reply:
    [response.result?.data], or [null] when the request failed. *)
Definition data_of {D} (r : Reply (Envelope D)) : option D :=
  match r with
  | Ok body => result_data body
  | Fail _ => None
  end.

(** The address [rotateIp] considers, given what [getActiveIps] returned
    and the configured address: the guard [activeIps && activeIps.length
    > 1] followed by the [find]. *)
Definition candidate (fetched : option (list IpEntry))
    (current : option string) : option string :=
  match fetched with
  | Some l => if 1 <? Z.of_nat (List.length l) then newIp_of l current else None
  | None => None
  end.

(** The stats file after [saveStats]. *)
Definition persisted (w : World) : World :=
  if fsWritable w then with_statsFile (Content (Json (stats w))) w else w.


(** The error the [try] block of [checkIn] throws, if it throws. *)
Definition attempt_error (env : CheckinEnv) : option Error :=
  if latin1 env
  then match reply (post env) with
       | Fail e => Some e
       | Ok _ => None
       end
  else Some (mkError None "Invalid character").

(** The stats of a failed attempt as [checkIn] saves them. *)
Definition failed_attempt (s : Stats) : Stats :=
  set_failedCheckins (failedCheckins s + 1)
    (set_totalCheckins (totalCheckins s + 1) s).

Definition address_eq_dec (a b : option string) : {a = b} + {a <> b}.
Proof. decide equality. apply string_dec. Defined.

(** Number of distinct addresses in an active-IP list. *)
Definition distinct_addresses (l : list IpEntry) : nat :=
  List.length (nodup address_eq_dec (map entry_ipAddress l)).

(** ** Sample inputs *)

Definition on_time : Delays := mkDelays 0 0.

Definition answers {B} (b : B) : Exchange B := mkExchange on_time 120 (Ok b).


Definition entries (l : list string) : list IpEntry :=
  map (fun s => mkIpEntry (Some s)) l.

Definition active_list (l : list string) : Exchange (Envelope (list IpEntry)) :=
  answers (mkEnvelope (Some (entries l))).

(** A new object on a machine without a stats file, configured with
    address A, at 2023-11-14T22:13:20Z. *)
Definition world_A : World :=
  newWorld 1700000000000 (Some "A"%string) Missing true.

Definition world_B : World :=
  newWorld 1700000000000 (Some "B"%string) Missing true.




(** Check-in answered with [{ points: p }]; the rotation that may follow
    sees addresses A and B. *)
Definition checkin_paying (p : Z) : CheckinEnv :=
  mkCheckinEnv true (answers (Some (mkCheckinBody (Some p))))
               (active_list ["A"; "B"]%string).


Definition device_up (ms : Z) : Exchange (Envelope DeviceStatus) :=
  answers (mkEnvelope (Some (mkDeviceStatus true (Some ms)))).

Definition profile_with (t : Z) : Exchange (Envelope Profile) :=
  answers (mkEnvelope (Some (mkProfile (Some t)))).

(** A cycle in which every request succeeds: uptime of two hours, a
    check-in worth [p] points, a profile reporting [t] points. *)
Definition cycle_with (p t : Z) : CycleEnv :=
  mkCycleEnv (device_up 7200000)
             (active_list ["A"; "B"]%string)
             (active_list ["A"; "B"]%string)
             (checkin_paying p)
             (profile_with t).

Definition with_points (n : Z) (w : World) : World :=
  with_stats (set_totalPoints n (stats w)) w.

Definition with_uptime (n : Z) (w : World) : World :=
  with_stats (set_uptimeHours n (stats w)) w.

(** ** Log filter (lines 59-64) *)

(** [const levels = { error: 0, warn: 1, info: 2, debug: 3 }] read at a
    key: a number for the four names, nothing that compares as a number
    for any other key. *)
Definition levels (name : string) : option Z :=
  if String.eqb name "error" then Some 0
  else if String.eqb name "warn" then Some 1
  else if String.eqb name "info" then Some 2
  else if String.eqb name "debug" then Some 3
  else None.

(** The strings the class passes as [level]. *)
Definition level_name (l : Level) : string :=
  match l with
  | error => "error"
  | warn => "warn"
  | info => "info"
  | debug => "debug"
  end.

(** [process.env.LOG_LEVEL || 'info'] *)
Definition logLevel (LOG_LEVEL : option string) : string :=
  match LOG_LEVEL with
  | Some s => if String.eqb s "" then "info" else s
  | None => "info"
  end.

(** [levels[level] <= levels[logLevel]]: the test that guards every
    output of [log]; [<=] against [undefined] is false. *)
Definition log_enabled (level : Level) (LOG_LEVEL : option string) : bool :=
  match levels (level_name level), levels (logLevel LOG_LEVEL) with
  | Some a, Some b => a <=? b
  | _, _ => false
  end.

(** ** Start-up (lines 360-377 and 384-423) *)

(** [parseInt(process.env.CHECK_INTERVAL_MINUTES) || 5], from what
    [parseInt] gave ([None]: NaN). *)
Definition intervalMinutes (parsed : option Z) : Z :=
  match parsed with
  | Some n => if n =? 0 then 5 else n
  | None => 5
  end.

(** [cron.schedule(`*/${n} * * * *`, task)]: the library registers the
    task or throws on an expression it rejects; [valid] says which. *)
Definition cron_schedule (valid : Z -> bool) (n : Z) : M unit :=
  if valid n then ret tt
  else throw (mkError None "pattern is a invalid expression").

Definition start (parsed : option Z) (valid : Z -> bool) (env : CycleEnv)
  : M unit :=
  log info "Grass Automation Started" ;;
  cron_schedule valid (intervalMinutes parsed) ;;
  monitorAndMaintain env ;;
  ret tt.

(** [new GrassAutomation()] in a process whose clock, disk and network
    are those of [outside]: the fields the constructor sets, then
    [initialize].  [this.stats] is unset until [loadStats] assigns it. *)
Definition construct (DEFAULT_IP : option string) (outside : World) : World :=
  snd (initialize
         (mkWorld DEFAULT_IP defaultStats (newRateLimiter (clock outside))
                  None (clock outside) (statsFile outside)
                  (fsWritable outside) (wire outside))).

(** How an [await] on an async function can end once [process.exit] is
    in play. *)
Inductive Ending :=
| Resolved
| Rejected (e : Error)
| Exited (code : Z).

(** What the outside world does during one [main]. *)
Record Boot := mkBoot {
  boot_parsed : option Z;
  boot_valid : Z -> bool;
  boot_env : CycleEnv
}.

(** [main]: its [catch] block ends the process with status 1. *)
Definition main (DEFAULT_IP : option string) (b : Boot) (outside : World)
  : Ending * World :=
  match start (boot_parsed b) (boot_valid b) (boot_env b)
              (construct DEFAULT_IP outside) with
  | (Ret _, w) => (Resolved, w)
  | (Throw _, w) => (Exited 1, w)
  end.

Inductive Event :=
| MainCalled (i : nat)
| Slept (ms : Z)
| ProcessExit (code : Z).

(** The [for] loop of [startWithRetry] from index [i], with [remaining]
    iterations left before [i < maxRetries] fails. *)
Fixpoint retry_from (remaining i maxRetries : nat) (delay : Z)
    (DEFAULT_IP : option string) (boots : nat -> Boot) (outside : World)
  : list Event * World :=
  match remaining with
  | O => ([], outside)
  | S rest =>
      match main DEFAULT_IP (boots i) outside with
      | (Resolved, w) => ([MainCalled i], w)
      | (Exited code, w) => ([MainCalled i; ProcessExit code], w)
      | (Rejected _, w) =>
          if Z.of_nat i <? Z.of_nat maxRetries - 1
          then
            let (evs, w') :=
              retry_from rest (S i) maxRetries delay DEFAULT_IP boots
                         (snd (sleep delay 0 w)) in
            (MainCalled i :: Slept delay :: evs, w')
          else ([MainCalled i; ProcessExit 1], w)
      end
  end.

Definition startWithRetry (maxRetries : nat) (delay : Z)
    (DEFAULT_IP : option string) (boots : nat -> Boot) (outside : World)
  : list Event * World :=
  retry_from maxRetries 0 maxRetries delay DEFAULT_IP boots outside.

(** ** Vocabulary of the further statements *)

(** What holds of the limiter between calls, from the constructor on:
    the count stays within the quota, no stamp is ahead of the clock,
    and [k] requests counted in a window put the last one at least
    [k - 1] intervals after the window's start. *)
Definition limiter_ok (w : World) : Prop :=
  configured w /\
  0 <= requestCount (rateLimiter w) <= 3 /\
  minuteStart (rateLimiter w) <= clock w /\
  lastRequest (rateLimiter w) <= clock w /\
  (1 <= requestCount (rateLimiter w) ->
   minuteStart (rateLimiter w) + 30000 * (requestCount (rateLimiter w) - 1)
     <= lastRequest (rateLimiter w)).

(** The timers of a limiter call do not fire early. *)
Definition on_schedule (d : Delays) : Prop :=
  0 <= over_quota d /\ 0 <= over_interval d.

Definition punctual_checkin (c : CheckinEnv) : Prop :=
  on_schedule (delays (post c)) /\ on_schedule (delays (rotation c)).

Definition punctual (env : CycleEnv) : Prop :=
  on_schedule (delays (device env)) /\
  on_schedule (delays (active env)) /\
  on_schedule (delays (scheduled env)) /\
  punctual_checkin (checkin env) /\
  on_schedule (delays (profile env)).

(** From [w] to [w'] requests were only added to the wire, and the
    limiter's stamp moved on by at least 30 s for each one added. *)
Definition paced (w w' : World) : Prop :=
  configured w ->
  configured w' /\
  (List.length (wire w) <= List.length (wire w'))%nat /\
  lastRequest (rateLimiter w)
    + 30000 * (Z.of_nat (List.length (wire w'))
               - Z.of_nat (List.length (wire w)))
    <= lastRequest (rateLimiter w').

(** A computation that takes every world to one related to it by [R]. *)
Definition Keeps {A} (R : World -> World -> Prop) (c : M A) : Prop :=
  forall w, R w (snd (c w)).

(** Either nothing about the rotation changed, or the address was
    swapped and the swap was counted. *)
Definition rotation_step (w w' : World) : Prop :=
  (ipAddress w' = ipAddress w /\
   ipRotations (stats w') = ipRotations (stats w)) \/
  (ipAddress w' <> ipAddress w /\
   ipRotations (stats w') = ipRotations (stats w) + 1).

(** A start-up whose cron expression is accepted, with a cycle in which
    everything succeeds. *)
Definition boot_fine : Boot :=
  mkBoot (Some 5) (fun _ => true) (cycle_with 50 500).

(** A start-up whose cron expression is rejected. *)
Definition boot_bad_cron : Boot :=
  mkBoot (Some (-3)) (fun n => 0 <? n) (cycle_with 50 500).

(** * Properties *)

(** Run the monad's plumbing and the record projections, leaving integer
    arithmetic and string tests folded. *)
Tactic Notation "js_cbn" :=
  cbn -[Z.add Z.sub Z.mul Z.div Z.max Z.ltb Z.leb Z.eqb Z.of_nat
        String.eqb includes Qle_bool hoursSinceLastRotation
        waitForRateLimit makeRequest getActiveIps getUserProfile
        getDeviceStatus rotateIp saveStats checkIn checkIn_catch persisted].

Tactic Notation "js_cbn" "in" hyp(H) :=
  cbn -[Z.add Z.sub Z.mul Z.div Z.max Z.ltb Z.leb Z.eqb Z.of_nat
        String.eqb includes Qle_bool hoursSinceLastRotation
        waitForRateLimit makeRequest getActiveIps getUserProfile
        getDeviceStatus rotateIp saveStats checkIn checkIn_catch persisted] in H.

(** ** Rate limiter *)

Lemma waitForRateLimit_returns d w :
  fst (waitForRateLimit d w) = Ret tt.
Proof.
  unfold waitForRateLimit, bind, when, get, Date_now, update_limiter,
    modify, sleep, log, ret.
  js_cbn.
  repeat match goal with
         | |- context [if ?c then _ else _] => destruct c; js_cbn
         end; reflexivity.
Qed.

(** One call leaves the constants alone and stamps a time at least
    [minInterval] after the stamp it found. *)
Lemma waitForRateLimit_step d w :
  0 <= over_quota d -> 0 <= over_interval d ->
  let w' := snd (waitForRateLimit d w) in
  minInterval (rateLimiter w') = minInterval (rateLimiter w) /\
  requestsPerMinute (rateLimiter w') = requestsPerMinute (rateLimiter w) /\
  lastRequest (rateLimiter w) + minInterval (rateLimiter w)
    <= lastRequest (rateLimiter w') /\
  lastRequest (rateLimiter w') = clock w'.
Proof.
  intros Hq Hi.
  destruct w as [ip st [lr mi rpm rc ms] av ck f rw wr].
  unfold waitForRateLimit, bind, when, get, Date_now, update_limiter,
    modify, sleep, log, ret.
  js_cbn.
  destruct (60000 <? ck - ms); js_cbn;
    destruct (rpm <=? _); js_cbn;
    destruct (Z.ltb_spec (ck - lr) mi); js_cbn;
    repeat split; lia.
Qed.

(** It touches the limiter and the clock only. *)
Lemma waitForRateLimit_quiet d w :
  let w' := snd (waitForRateLimit d w) in
  quiet w w' /\ wire w' = wire w /\ availableIps w' = availableIps w.
Proof.
  destruct w as [ip st [lr mi rpm rc ms] av ck f rw wr].
  unfold waitForRateLimit, bind, when, get, Date_now, update_limiter,
    modify, sleep, log, ret, quiet.
  js_cbn.
  destruct (60000 <? ck - ms); js_cbn;
    destruct (rpm <=? _); js_cbn;
    destruct (ck - lr <? mi); js_cbn;
    repeat split; reflexivity.
Qed.












(** Four calls with no pause: the second and third wait out the
    interval, the fourth finds the quota of 3 used up and a window that
    has just closed, so it restarts the window and then waits out the
    interval as well. *)
Example four_calls_back_to_back :
  acquires [(0, on_time); (0, on_time); (0, on_time); (0, on_time)]
           (newWorld 1000000 None Missing true)
  = ([1000000; 1030000; 1060000; 1090000],
     mkWorld None defaultStats
             (mkRateLimiter 1090000 30000 3 1 1060000)
             None 1090000 Missing true []).
Proof. vm_compute. reflexivity. Qed.

(** A call that comes 90 s after the last one starts a new window and
    does not wait. *)
Example call_after_long_pause :
  acquires [(0, on_time); (90000, on_time)]
           (newWorld 1000000 None Missing true)
  = ([1000000; 1090000],
     mkWorld None defaultStats
             (mkRateLimiter 1090000 30000 3 1 1090000)
             None 1090000 Missing true []).
Proof. vm_compute. reflexivity. Qed.

(** ** Stats file *)

Lemma saveStats_run w :
  saveStats w = (Ret tt, persisted w).
Proof.
  unfold saveStats, persisted, try_catch, bind, get, writeFileSync, log, ret.
  destruct (fsWritable w); reflexivity.
Qed.

Lemma persisted_stats w : stats (persisted w) = stats w.
Proof. unfold persisted. destruct (fsWritable w); reflexivity. Qed.

Lemma persisted_ipAddress w : ipAddress (persisted w) = ipAddress w.
Proof. unfold persisted. destruct (fsWritable w); reflexivity. Qed.

Lemma persisted_fsWritable w : fsWritable (persisted w) = fsWritable w.
Proof. unfold persisted. destruct (fsWritable w) eqn:E; cbn; congruence. Qed.

Lemma persisted_wire w : wire (persisted w) = wire w.
Proof. unfold persisted. destruct (fsWritable w); reflexivity. Qed.

Lemma persisted_statsFile w :
  statsFile (persisted w) =
  if fsWritable w then Content (Json (stats w)) else statsFile w.
Proof. unfold persisted. destruct (fsWritable w); reflexivity. Qed.


Example loadStats_on_garbled_file :
  loadStats (with_stats (mkStats 7 4 3 (Some 1699999000000) 120 9 2)
               (with_statsFile (Content Garbled) world_A))
  = (Ret tt, with_statsFile (Content Garbled) world_A).
Proof. vm_compute. reflexivity. Qed.

Example saveStats_then_loadStats :
  (saveStats ;; update_stats (fun _ => defaultStats) ;; loadStats)
    (with_points 42 world_A)
  = (Ret tt, persisted (with_points 42 world_A)).
Proof. vm_compute. reflexivity. Qed.

Example includes_rate_limit :
  includes "rate limit" "403 - rate limit exceeded" = true /\
  includes "rate limit" "Rate Limit Exceeded" = false /\
  includes "rate limit" "" = false.
Proof. repeat split; reflexivity. Qed.

(** ** Requests *)

(** A request goes on the wire once, whatever comes back, and changes
    neither configuration, stats nor disk. *)
Lemma makeRequest_run {B} m ep tok (x : Exchange B) w :
  exists w',
    makeRequest m ep tok x w = (completion (reply x), w') /\
    quiet w w' /\
    wire w' = wire w ++ [mkRequest m ep tok] /\
    availableIps w' = availableIps w.
Proof.
  unfold makeRequest, bind.
  pose proof (waitForRateLimit_returns (delays x) w) as Hr.
  pose proof (waitForRateLimit_quiet (delays x) w) as (Hq & Hw & Ha).
  destruct (waitForRateLimit (delays x) w) as [r w1].
  cbn [fst snd] in *. subst r.
  unfold try_catch, cloudscraper, log, ret, throw, completion.
  destruct (reply x) as [b | e]; js_cbn;
    (eexists; split; [reflexivity |]);
    (split; [| split]); js_cbn; try congruence;
    destruct Hq as (Q1 & Q2 & Q3 & Q4); unfold quiet; js_cbn; auto.
Qed.

Lemma getActiveIps_run x w :
  exists w',
    getActiveIps x w = (Ret (data_of (reply x)), w') /\
    quiet w w' /\
    wire w' = wire w ++ [mkRequest GET ActiveIps None].
Proof.
  unfold getActiveIps, try_catch, bind.
  destruct (makeRequest_run GET ActiveIps None x w)
    as (w1 & E & Hq & Hw & _).
  rewrite E. unfold completion, data_of, log, ret, modify.
  destruct (reply x) as [[[data |]] | e]; js_cbn;
    (eexists; split; [reflexivity |]); split; js_cbn; auto.
Qed.

Lemma getUserProfile_run x w :
  exists w',
    getUserProfile x w = (Ret (data_of (reply x)), w') /\
    quiet w w' /\
    wire w' = wire w ++ [mkRequest GET RetrieveUser None].
Proof.
  unfold getUserProfile, try_catch, bind.
  destruct (makeRequest_run GET RetrieveUser None x w)
    as (w1 & E & Hq & Hw & _).
  rewrite E. unfold completion, data_of, log, ret.
  destruct (reply x) as [body | e]; js_cbn;
    (eexists; split; [reflexivity |]); split; auto.
Qed.

Lemma getDeviceStatus_run x w :
  exists w',
    getDeviceStatus x w = (Ret (data_of (reply x)), w') /\
    quiet w w' /\
    wire w' = wire w ++ [mkRequest GET RetrieveDevice None].
Proof.
  unfold getDeviceStatus, try_catch, bind.
  destruct (makeRequest_run GET RetrieveDevice None x w)
    as (w1 & E & Hq & Hw & _).
  rewrite E. unfold completion, data_of, log, ret.
  destruct (reply x) as [body | e]; js_cbn;
    (eexists; split; [reflexivity |]); split; auto.
Qed.

(** ** IP rotation *)

Lemma strict_neq_true a b : strict_neq a b = true <-> a <> b.
Proof.
  destruct a as [s |], b as [t |]; cbn.
  - rewrite negb_true_iff. destruct (String.eqb_spec s t); split;
      congruence.
  - split; congruence.
  - split; congruence.
  - split; congruence.
Qed.

Lemma strict_neq_false a b : strict_neq a b = false <-> a = b.
Proof.
  destruct (strict_neq a b) eqn:E.
  - apply strict_neq_true in E. split; [discriminate | contradiction].
  - split; [| reflexivity]. intros _.
    destruct (address_eq_dec a b) as [H | H]; [exact H |].
    apply strict_neq_true in H. congruence.
Qed.

(** [find] returns the first element that passes the test. *)
Lemma find_first {A} (p : A -> bool) (l : list A) e :
  find p l = Some e ->
  exists before after,
    l = before ++ e :: after /\
    Forall (fun y => p y = false) before /\
    p e = true.
Proof.
  induction l as [| y l IH]; cbn; [discriminate |].
  destruct (p y) eqn:Ey; intros H.
  - injection H as <-. exists [], l. repeat split; auto.
  - destruct (IH H) as (before & after & -> & Hb & He).
    exists (y :: before), after. repeat split; auto.
Qed.

(** What one [rotateIp] call does, in one equation: one fetch of the
    active list, then either the swap with the counter bumped, or
    nothing. *)
Lemma rotateIp_run x w :
  exists w1,
    quiet w w1 /\
    wire w1 = wire w ++ [mkRequest GET ActiveIps None] /\
    rotateIp x w =
      let newIp := candidate (data_of (reply x)) (ipAddress w) in
      if truthy_string newIp
      then (Ret true,
            with_stats (set_ipRotations (ipRotations (stats w) + 1) (stats w))
                       (with_ipAddress newIp w1))
      else (Ret false, w1).
Proof.
  unfold rotateIp, try_catch, bind.
  destruct (getActiveIps_run x w) as (w1 & E & Hq & Hw).
  rewrite E. exists w1. split; [exact Hq |]. split; [exact Hw |].
  destruct Hq as (Q1 & Q2 & Q3 & Q4).
  unfold candidate, get, modify, update_stats, log, ret.
  destruct (data_of (reply x)) as [l |]; js_cbn; [| reflexivity].
  destruct (1 <? Z.of_nat (List.length l)); js_cbn; [| reflexivity].
  rewrite Q1.
  destruct (truthy_string (newIp_of l (ipAddress w))); js_cbn;
    [| reflexivity].
  rewrite Q2. reflexivity.
Qed.

Lemma candidate_differs fetched current :
  truthy_string (candidate fetched current) = true ->
  candidate fetched current <> current.
Proof.
  unfold candidate, newIp_of.
  destruct fetched as [l |]; [| discriminate].
  destruct (1 <? Z.of_nat (List.length l)); [| discriminate].
  destruct (find _ l) as [e |] eqn:E; [| discriminate].
  intros _. apply find_some in E. destruct E as [_ E].
  apply strict_neq_true in E. exact E.
Qed.

(** C9. [rotateIp] always returns [true] or [false].  When it returns
    [false] the configured address and [ipRotations] are as before; when
    it returns [true] the address has been replaced by a different one
    and [ipRotations] has grown by exactly one.  The other stats fields
    are never touched. *)
Theorem rotateIp_all_or_nothing :
  forall (x : Exchange (Envelope (list IpEntry))) (w : World),
    let w' := snd (rotateIp x w) in
    exists b : bool,
      fst (rotateIp x w) = Ret b /\
      (if b
       then ipAddress w' <> ipAddress w /\
            ipRotations (stats w') = ipRotations (stats w) + 1
       else ipAddress w' = ipAddress w /\
            ipRotations (stats w') = ipRotations (stats w)) /\
      set_ipRotations (ipRotations (stats w)) (stats w') = stats w.
Proof.
  intros x w.
  destruct (rotateIp_run x w) as (w1 & (Q1 & Q2 & Q3 & Q4) & Hw & E).
  cbv zeta in E |- *. rewrite E.
  destruct (truthy_string (candidate (data_of (reply x)) (ipAddress w)))
    eqn:Ht.
  - exists true. js_cbn. split; [reflexivity |]. split.
    + split; [| reflexivity]. apply candidate_differs. exact Ht.
    + destruct (stats w); reflexivity.
  - exists false. js_cbn. split; [reflexivity |]. split.
    + rewrite Q1, Q2. split; reflexivity.
    + rewrite Q2. destruct (stats w); reflexivity.
Qed.

Lemma find_at_first {A} (p : A -> bool) before e after :
  Forall (fun y => p y = false) before ->
  p e = true ->
  find p (before ++ e :: after) = Some e.
Proof.
  induction 1 as [| y before Hy Hb IH]; intros He; cbn.
  - rewrite He. reflexivity.
  - rewrite Hy. apply IH. exact He.
Qed.

Lemma find_nowhere {A} (p : A -> bool) l :
  Forall (fun y => p y = false) l -> find p l = None.
Proof.
  induction 1 as [| y l Hy Hl IH]; cbn.
  - reflexivity.
  - rewrite Hy. exact IH.
Qed.

Lemma rotateIp_returns x w :
  fst (rotateIp x w) =
  Ret (truthy_string (candidate (data_of (reply x)) (ipAddress w))).
Proof.
  destruct (rotateIp_run x w) as (w1 & _ & _ & E).
  cbv zeta in E. rewrite E.
  destruct (truthy_string _); reflexivity.
Qed.

Lemma rotateIp_address x w :
  truthy_string (candidate (data_of (reply x)) (ipAddress w)) = true ->
  ipAddress (snd (rotateIp x w)) =
  candidate (data_of (reply x)) (ipAddress w).
Proof.
  intros Ht.
  destruct (rotateIp_run x w) as (w1 & _ & _ & E).
  cbv zeta in E. rewrite E, Ht. reflexivity.
Qed.

(** C3 (amended). When [rotateIp] rotates, the new address is that of the
    first entry of the fetched list whose address differs from the
    current one, and so is never the current one; it does rotate whenever
    the list has at least two entries and that first differing entry
    carries a non-empty address.  It does not rotate when the fetch
    failed or brought no list, when the list has fewer than two entries,
    or when no entry's address differs from the current one. *)
Theorem rotateIp_first_different :
  forall (x : Exchange (Envelope (list IpEntry))) (w : World),
    let r := rotateIp x w in
    (fst r = Ret true ->
     exists l before e after,
       data_of (reply x) = Some l /\
       l = before ++ e :: after /\
       Forall (fun y => entry_ipAddress y = ipAddress w) before /\
       entry_ipAddress e <> ipAddress w /\
       ipAddress (snd r) = entry_ipAddress e /\
       ipAddress (snd r) <> ipAddress w) /\
    (forall before e after s,
        data_of (reply x) = Some (before ++ e :: after) ->
        (2 <= List.length (before ++ e :: after))%nat ->
        Forall (fun y => entry_ipAddress y = ipAddress w) before ->
        entry_ipAddress e = Some s ->
        s <> ""%string ->
        Some s <> ipAddress w ->
        fst r = Ret true /\ ipAddress (snd r) = Some s) /\
    (data_of (reply x) = None -> fst r = Ret false) /\
    (forall l,
        data_of (reply x) = Some l ->
        (List.length l < 2)%nat ->
        fst r = Ret false) /\
    (forall l,
        data_of (reply x) = Some l ->
        Forall (fun y => entry_ipAddress y = ipAddress w) l ->
        fst r = Ret false).
Proof.
  intros x w r. subst r.
  split; [| split; [| split; [| split]]].
  - intros Hr. rewrite rotateIp_returns in Hr.
    injection Hr as Ht.
    rewrite (rotateIp_address x w Ht).
    pose proof (candidate_differs _ _ Ht) as Hd.
    unfold candidate, newIp_of in *.
    destruct (data_of (reply x)) as [l |]; [| discriminate].
    destruct (1 <? Z.of_nat (List.length l)); [| discriminate].
    destruct (find _ l) as [e |] eqn:E; [| discriminate].
    destruct (find_first _ _ _ E) as (before & after & Hl & Hb & He).
    exists l, before, e, after.
    repeat split; auto.
    eapply Forall_impl; [| exact Hb].
    intros y Hy. apply strict_neq_false. exact Hy.
  - intros before e after s Hd Hlen Hb He Hs Hne.
    assert (Hc : candidate (data_of (reply x)) (ipAddress w) = Some s).
    { rewrite Hd. unfold candidate, newIp_of.
      destruct (Z.ltb_spec 1 (Z.of_nat (List.length (before ++ e :: after))));
        [| lia].
      rewrite (find_at_first _ before e after).
      - exact He.
      - eapply Forall_impl; [| exact Hb].
        intros y Hy. apply strict_neq_false. exact Hy.
      - apply strict_neq_true. rewrite He. exact Hne. }
    assert (Ht : truthy_string (candidate (data_of (reply x)) (ipAddress w))
                 = true).
    { rewrite Hc. cbn. apply negb_true_iff.
      destruct (String.eqb_spec s ""); [contradiction | reflexivity]. }
    split.
    + rewrite rotateIp_returns, Ht. reflexivity.
    + rewrite (rotateIp_address x w Ht). exact Hc.
  - intros Hd. rewrite rotateIp_returns, Hd. reflexivity.
  - intros l Hd Hlen. rewrite rotateIp_returns, Hd. unfold candidate.
    destruct (Z.ltb_spec 1 (Z.of_nat (List.length l))); [lia | reflexivity].
  - intros l Hd Hall. rewrite rotateIp_returns, Hd. unfold candidate.
    destruct (1 <? Z.of_nat (List.length l)); [| reflexivity].
    unfold newIp_of. rewrite find_nowhere; [reflexivity |].
    eapply Forall_impl; [| exact Hall].
    intros y Hy. apply strict_neq_false. exact Hy.
Qed.

(** The scenario of the specification: active addresses A and B, current
    address A; the rotation picks B and counts one rotation. *)
Lemma rotateIp_first_different_witness :
  data_of (reply (active_list ["A"; "B"]%string))
    = Some ([] ++ mkIpEntry (Some "A"%string)
               :: [mkIpEntry (Some "B"%string)]) /\
  fst (rotateIp (active_list ["A"; "B"]%string) world_A) = Ret true /\
  ipAddress (snd (rotateIp (active_list ["A"; "B"]%string) world_A))
    = Some "B"%string /\
  ipRotations (stats (snd (rotateIp (active_list ["A"; "B"]%string) world_A)))
    = ipRotations (stats world_A) + 1.
Proof.
  split; [reflexivity |].
  destruct (rotateIp_first_different (active_list ["A"; "B"]%string) world_A)
    as (_ & Hsel & _).
  destruct (Hsel [mkIpEntry (Some "A"%string)] (mkIpEntry (Some "B"%string))
                 [] "B"%string) as [Hr Ha].
  - reflexivity.
  - cbn. lia.
  - repeat constructor.
  - reflexivity.
  - discriminate.
  - discriminate.
  - split; [exact Hr |]. split; [exact Ha |]. vm_compute. reflexivity.
Defined.

(** C3 as stated fails: a list of two entries with one distinct address,
    neither the current one, is rotated to. *)
Lemma rotateIp_one_distinct_address_rotates :
  (distinct_addresses (entries ["A"; "A"]%string) < 2)%nat /\
  data_of (reply (active_list ["A"; "A"]%string))
    = Some (entries ["A"; "A"]%string) /\
  ipAddress world_B = Some "B"%string /\
  fst (rotateIp (active_list ["A"; "A"]%string) world_B) = Ret true /\
  ipAddress (snd (rotateIp (active_list ["A"; "A"]%string) world_B))
    = Some "A"%string.
Proof.
  split; [vm_compute; lia |].
  repeat split; vm_compute; reflexivity.
Qed.

(** ** Check-in *)

Lemma sent_since_app w w' l :
  wire w' = wire w ++ l -> sent_since w w' = l.
Proof.
  unfold sent_since. intros ->.
  rewrite skipn_app, skipn_all, Nat.sub_diag. reflexivity.
Qed.


(** A check-in whose request is answered: the attempt and the success
    are counted, the response's points are added, the stats are saved,
    nothing else is sent. *)
Lemma checkIn_success env w resp :
  latin1 env = true ->
  reply (post env) = Ok resp ->
  exists w',
    checkIn env w = (Ret resp, w') /\
    ipAddress w' = ipAddress w /\
    fsWritable w' = fsWritable w /\
    statsFile w' =
      (if fsWritable w then Content (Json (stats w')) else statsFile w) /\
    totalCheckins (stats w') = totalCheckins (stats w) + 1 /\
    successfulCheckins (stats w') = successfulCheckins (stats w) + 1 /\
    failedCheckins (stats w') = failedCheckins (stats w) /\
    totalPoints (stats w') =
      totalPoints (stats w) +
      match resp with
      | Some body => number_of (points body)
      | None => 0
      end /\
    uptimeHours (stats w') = uptimeHours (stats w) /\
    ipRotations (stats w') = ipRotations (stats w) /\
    rotation_attempts (sent_since w w') = 0%nat.
Proof.
  intros Hl Hp.
  unfold checkIn, try_catch, bind at 1.
  unfold update_stats at 1, modify at 1.
  unfold bind at 1, generateCheckinToken, bind at 1, Date_now at 1.
  unfold bind at 1, get at 1. rewrite Hl. unfold ret at 1.
  unfold bind at 1.
  match goal with
  | |- context [makeRequest ?m ?ep ?tok ?x ?w0] =>
      destruct (makeRequest_run m ep tok x w0)
        as (w1 & E & (Q1 & Q2 & Q3 & Q4) & Hw & _);
      rewrite E
  end.
  rewrite Hp. unfold completion.
  unfold bind, update_stats, modify, Date_now, log, ret, when.
  js_cbn in Q1; js_cbn in Q2; js_cbn in Q3; js_cbn in Q4; js_cbn in Hw.
  destruct resp as [body |]; js_cbn.
  - assert (Hn : truthy_number (points body) = false ->
                 number_of (points body) = 0).
    { destruct (points body) as [n |]; cbn -[Z.eqb]; [| reflexivity].
      intros H. apply negb_false_iff, Z.eqb_eq in H. exact H. }
    destruct (truthy_number (points body)) eqn:Ht; js_cbn;
      rewrite saveStats_run; js_cbn;
      (eexists; split; [reflexivity |]);
      rewrite ?persisted_ipAddress, ?persisted_fsWritable,
        ?persisted_statsFile, ?persisted_stats;
      js_cbn; rewrite ?Q2, ?Q3, ?Q4; js_cbn;
      (erewrite sent_since_app
         by (rewrite persisted_wire; js_cbn; exact Hw));
      try rewrite (Hn eq_refl);
      repeat split; try reflexivity; try assumption; lia.
  - rewrite saveStats_run; js_cbn.
    eexists; split; [reflexivity |].
    rewrite ?persisted_ipAddress, ?persisted_fsWritable,
      ?persisted_statsFile, ?persisted_stats.
    js_cbn. rewrite ?Q2, ?Q3, ?Q4. js_cbn.
    erewrite sent_since_app
      by (rewrite persisted_wire; js_cbn; exact Hw).
    repeat split; try reflexivity; try assumption; lia.
Qed.

(** The [catch] block: the failure is counted and the stats are saved at
    once; a rate-limit error is followed by one [rotateIp], any other by
    none; the block returns [null]. *)
Lemma checkIn_catch_run env e w :
  exists w',
    checkIn_catch env e w = (Ret None, w') /\
    fsWritable w' = fsWritable w /\
    statsFile w' =
      (if fsWritable w
       then Content (Json (set_failedCheckins (failedCheckins (stats w) + 1)
                                              (stats w)))
       else statsFile w) /\
    set_ipRotations (ipRotations (stats w)) (stats w') =
      set_failedCheckins (failedCheckins (stats w) + 1) (stats w) /\
    wire w' =
      wire w ++
      (if rateLimited e then [mkRequest GET ActiveIps None] else []) /\
    (rateLimited e = false ->
     ipAddress w' = ipAddress w /\
     ipRotations (stats w') = ipRotations (stats w)).
Proof.
  unfold checkIn_catch, bind at 1, update_stats at 1, modify at 1.
  unfold bind at 1. rewrite saveStats_run.
  unfold bind, when, log, ret.
  destruct (rateLimited e); js_cbn.
  - match goal with
    | |- context [rotateIp ?x ?w0] =>
        destruct (rotateIp_run x w0)
          as (w1 & (Q1 & Q2 & Q3 & Q4) & Hw & E);
        cbv zeta in E; rewrite E
    end.
    rewrite persisted_ipAddress, persisted_stats in *.
    rewrite persisted_fsWritable in Q4.
    rewrite persisted_statsFile in Q3.
    rewrite persisted_wire in Hw.
    js_cbn in Q1; js_cbn in Q2; js_cbn in Q3; js_cbn in Q4; js_cbn in Hw.
    destruct (truthy_string _); js_cbn;
      (eexists; split; [reflexivity |]); js_cbn;
      rewrite ?Q2;
      (repeat split; try assumption; try discriminate);
      destruct (stats w); reflexivity.
  - eexists; split; [reflexivity |].
    rewrite persisted_fsWritable, persisted_statsFile, persisted_stats,
      persisted_ipAddress, persisted_wire, app_nil_r.
    js_cbn.
    repeat split; reflexivity.
Qed.

(** A check-in whose [try] block throws [e]. *)
Lemma checkIn_failure env w e :
  attempt_error env = Some e ->
  exists w',
    checkIn env w = (Ret None, w') /\
    fsWritable w' = fsWritable w /\
    statsFile w' =
      (if fsWritable w
       then Content (Json (failed_attempt (stats w)))
       else statsFile w) /\
    set_ipRotations (ipRotations (stats w)) (stats w') =
      failed_attempt (stats w) /\
    rotation_attempts (sent_since w w') =
      (if rateLimited e then 1 else 0)%nat /\
    (rateLimited e = false ->
     ipAddress w' = ipAddress w /\
     ipRotations (stats w') = ipRotations (stats w)).
Proof.
  unfold attempt_error, failed_attempt. intros He.
  unfold checkIn, try_catch, bind at 1.
  unfold update_stats at 1, modify at 1.
  unfold bind at 1, generateCheckinToken, bind at 1, Date_now at 1.
  unfold bind at 1, get at 1.
  destruct (latin1 env).
  - unfold ret at 1. unfold bind at 1.
    match goal with
    | |- context [makeRequest ?m ?ep ?tok ?x ?w0] =>
        destruct (makeRequest_run m ep tok x w0)
          as (w1 & E & (Q1 & Q2 & Q3 & Q4) & Hw & _);
        rewrite E
    end.
    destruct (reply (post env)) as [b | e']; [discriminate |].
    injection He as ->. unfold completion.
    js_cbn in Q1; js_cbn in Q2; js_cbn in Q3; js_cbn in Q4; js_cbn in Hw.
    destruct (checkIn_catch_run env e w1)
      as (w' & E' & F1 & F2 & F3 & F4 & F5).
    rewrite E'. exists w'. split; [reflexivity |].
    rewrite F1, F2, Q2, Q3, Q4 in *. js_cbn in F3.
    split; [reflexivity |]. split; [reflexivity |].
    split; [| split].
    + rewrite <- F3. destruct (stats w'); reflexivity.
    + erewrite sent_since_app
        by (rewrite F4, Hw, <- app_assoc; reflexivity).
      destruct (rateLimited e); reflexivity.
    + intros Hr. destruct (F5 Hr) as [G1 G2].
      rewrite G1, G2, Q1. js_cbn. split; reflexivity.
  - injection He as <-. unfold throw at 1.
    match goal with
    | |- context [checkIn_catch env ?e0 ?w0] =>
        destruct (checkIn_catch_run env e0 w0)
          as (w' & E' & F1 & F2 & F3 & F4 & F5);
        rewrite E'
    end.
    exists w'. split; [reflexivity |].
    js_cbn in F1; js_cbn in F2; js_cbn in F3; js_cbn in F4.
    rewrite F1, F2. split; [reflexivity |]. split; [reflexivity |].
    split; [| split].
    + rewrite <- F3. destruct (stats w'); reflexivity.
    + erewrite sent_since_app by (exact F4). reflexivity.
    + intros Hr. destruct (F5 Hr) as [G1 G2].
      rewrite G1, G2. js_cbn. split; reflexivity.
Qed.

Lemma attempt_error_none env :
  attempt_error env = None ->
  latin1 env = true /\ exists resp, reply (post env) = Ok resp.
Proof.
  unfold attempt_error.
  destruct (latin1 env); [| discriminate].
  destruct (reply (post env)) as [resp | e]; [| discriminate].
  intros _. split; [reflexivity |]. exists resp. reflexivity.
Qed.

(** [checkIn] always returns, and leaves the disk writable or not as it
    found it. *)
Lemma checkIn_returns env w :
  exists r w',
    checkIn env w = (Ret r, w') /\ fsWritable w' = fsWritable w.
Proof.
  destruct (attempt_error env) as [e |] eqn:E.
  - destruct (checkIn_failure env w e E) as (w' & E' & F & _).
    exists None, w'. split; assumption.
  - destruct (attempt_error_none env E) as (Hl & resp & Hp).
    destruct (checkIn_success env w resp Hl Hp) as (w' & E' & _ & F & _).
    exists resp, w'. split; assumption.
Qed.





(** ** Monitoring cycle *)

Lemma bind_ret {A B} (c : M A) (k : A -> M B) w a w' :
  c w = (Ret a, w') -> bind c k w = k a w'.
Proof. unfold bind. intros ->. reflexivity. Qed.

(** Step 1 sends one request and writes [uptimeHours] when the status
    carries a nonzero uptime; nothing else changes. *)
Lemma fetchStatus_run x w :
  exists w',
    fetchStatus x w = (Ret tt, w') /\
    ipAddress w' = ipAddress w /\
    statsFile w' = statsFile w /\
    fsWritable w' = fsWritable w /\
    wire w' = wire w ++ [mkRequest GET RetrieveDevice None] /\
    stats w' =
      match data_of (reply x) with
      | Some d =>
          if truthy_number (totalUptime d)
          then set_uptimeHours (number_of (totalUptime d) / 3600000) (stats w)
          else stats w
      | None => stats w
      end.
Proof.
  unfold fetchStatus.
  destruct (getDeviceStatus_run x w) as (w1 & E & (Q1 & Q2 & Q3 & Q4) & Hw).
  rewrite (bind_ret _ _ _ _ _ E).
  destruct (data_of (reply x)) as [d |].
  - unfold bind, when, log, ret, update_stats, modify.
    destruct (isConnected d); js_cbn;
      destruct (truthy_number (totalUptime d)); js_cbn;
      (eexists; split; [reflexivity |]); js_cbn;
      rewrite ?Q2; repeat split; assumption.
  - exists w1. unfold ret. repeat split; assumption.
Qed.

Lemma refreshIps_run x w :
  exists w',
    refreshIps x w = (Ret tt, w') /\
    quiet w w' /\
    wire w' = wire w ++ [mkRequest GET ActiveIps None].
Proof.
  unfold refreshIps.
  destruct (getActiveIps_run x w) as (w1 & E & Hq & Hw).
  rewrite (bind_ret _ _ _ _ _ E).
  exists w1. unfold ret. split; [reflexivity |]. split; assumption.
Qed.

(** Step 3 calls [rotateIp] once when the hours value is at least 12 and
    not at all otherwise. *)
Lemma maintainIp_run x w :
  exists w',
    maintainIp x w = (Ret tt, w') /\
    statsFile w' = statsFile w /\
    fsWritable w' = fsWritable w /\
    set_ipRotations (ipRotations (stats w)) (stats w') = stats w /\
    wire w' =
      wire w ++
      (if Qle_bool (inject_Z 12) (hoursSinceLastRotation (clock w) (stats w))
       then [mkRequest GET ActiveIps None]
       else []).
Proof.
  unfold maintainIp, bind at 1, Date_now at 1, bind at 1, get at 1, when.
  destruct (Qle_bool _ _).
  - unfold bind.
    destruct (rotateIp_run x w) as (w1 & (Q1 & Q2 & Q3 & Q4) & Hw & E).
    cbv zeta in E. rewrite E.
    destruct (truthy_string _); unfold ret;
      (eexists; split; [reflexivity |]); js_cbn;
      rewrite ?Q2; repeat split; try assumption;
      destruct (stats w); reflexivity.
  - exists w. unfold ret. rewrite app_nil_r.
    repeat split. destruct (stats w); reflexivity.
Qed.

(** Step 5 sends one request and overwrites [totalPoints] when the
    profile carries a nonzero total; nothing else changes. *)
Lemma syncProfile_run x w :
  exists w',
    syncProfile x w = (Ret tt, w') /\
    ipAddress w' = ipAddress w /\
    statsFile w' = statsFile w /\
    fsWritable w' = fsWritable w /\
    wire w' = wire w ++ [mkRequest GET RetrieveUser None] /\
    stats w' =
      match data_of (reply x) with
      | Some p =>
          if truthy_number (profile_totalPoints p)
          then set_totalPoints (number_of (profile_totalPoints p)) (stats w)
          else stats w
      | None => stats w
      end.
Proof.
  unfold syncProfile.
  destruct (getUserProfile_run x w) as (w1 & E & (Q1 & Q2 & Q3 & Q4) & Hw).
  rewrite (bind_ret _ _ _ _ _ E).
  destruct (data_of (reply x)) as [p |].
  - unfold when, ret, update_stats, modify.
    destruct (truthy_number (profile_totalPoints p)); js_cbn;
      (eexists; split; [reflexivity |]); js_cbn;
      rewrite ?Q2; repeat split; assumption.
  - exists w1. unfold ret. repeat split; assumption.
Qed.

(** The cycle runs its five steps in order and saves; it never throws. *)
Lemma monitorAndMaintain_run env w :
  monitorAndMaintain env w =
  (Ret tt, persisted (snd (syncProfile (profile env)
                                       (before_syncProfile env w)))).
Proof.
  unfold monitorAndMaintain, before_syncProfile, before_checkIn,
    before_maintainIp, try_catch.
  unfold bind at 1, log at 1, ret at 1.
  destruct (fetchStatus_run (device env) w) as (w1 & E1 & _).
  rewrite (bind_ret _ _ _ _ _ E1), (bind_ret _ _ w _ _ E1).
  destruct (refreshIps_run (active env) w1) as (w2 & E2 & _).
  rewrite (bind_ret _ _ _ _ _ E2), E2. cbn [snd].
  destruct (maintainIp_run (scheduled env) w2) as (w3 & E3 & _).
  rewrite (bind_ret _ _ _ _ _ E3), E3. cbn [snd].
  destruct (checkIn_returns (checkin env) w3) as (r & w4 & E4 & _).
  rewrite (bind_ret _ _ _ _ _ E4), E4. cbn [snd].
  destruct (syncProfile_run (profile env) w4) as (w5 & E5 & _).
  rewrite (bind_ret _ _ _ _ _ E5), E5. cbn [snd].
  unfold bind. rewrite saveStats_run. reflexivity.
Qed.

Lemma before_checkIn_writable env w :
  fsWritable (before_checkIn env w) = fsWritable w.
Proof.
  unfold before_checkIn, before_maintainIp.
  destruct (fetchStatus_run (device env) w) as (w1 & E1 & _ & _ & F1 & _).
  rewrite (bind_ret _ _ w _ _ E1).
  destruct (refreshIps_run (active env) w1)
    as (w2 & E2 & (_ & _ & _ & F2) & _).
  rewrite E2. cbn [snd].
  destruct (maintainIp_run (scheduled env) w2) as (w3 & E3 & _ & F3 & _).
  rewrite E3. cbn [snd]. congruence.
Qed.





(** C8 (amended). In step 1, when the device status is present and
    carries a nonzero uptime, [uptimeHours] becomes that uptime in
    milliseconds divided by 3,600,000, rounded down; 7,200,000 ms gives
    2. *)
Theorem fetchStatus_sets_uptimeHours :
  forall (x : Exchange (Envelope DeviceStatus)) (w : World)
         (d : DeviceStatus) (u : Z),
    data_of (reply x) = Some d ->
    totalUptime d = Some u ->
    u <> 0 ->
    fst (fetchStatus x w) = Ret tt /\
    uptimeHours (stats (snd (fetchStatus x w))) = u / 3600000 /\
    (u = 7200000 -> uptimeHours (stats (snd (fetchStatus x w))) = 2).
Proof.
  intros x w d u Hd Hu Hnz.
  destruct (fetchStatus_run x w) as (w' & E & _ & _ & _ & _ & Hs).
  rewrite E. cbn [fst snd]. rewrite Hs, Hd, Hu.
  cbn -[Z.div]. destruct (Z.eqb_spec u 0); [contradiction |].
  cbn -[Z.div]. repeat split. intros ->. reflexivity.
Qed.

Lemma fetchStatus_sets_uptimeHours_witness :
  data_of (reply (device_up 7200000))
    = Some (mkDeviceStatus true (Some 7200000)) /\
  uptimeHours (stats (snd (fetchStatus (device_up 7200000) world_A))) = 2.
Proof.
  split; [reflexivity |].
  destruct (fetchStatus_sets_uptimeHours
              (device_up 7200000) world_A
              (mkDeviceStatus true (Some 7200000)) 7200000)
    as (_ & _ & H).
  - reflexivity.
  - reflexivity.
  - discriminate.
  - exact (H eq_refl).
Defined.

(** C8 as stated fails: a status that carries an uptime of 0 ms leaves
    [uptimeHours] at its old value 5 instead of setting it to 0. *)
Lemma fetchStatus_zero_uptime_ignored :
  data_of (reply (device_up 0)) = Some (mkDeviceStatus true (Some 0)) /\
  0 / 3600000 = 0 /\
  uptimeHours (stats (with_uptime 5 world_A)) = 5 /\
  uptimeHours
    (stats (snd (fetchStatus (device_up 0) (with_uptime 5 world_A)))) = 5.
Proof.
  repeat split; vm_compute; reflexivity.
Qed.

(** C10. In step 5, when the profile request fails, brings no profile,
    or brings a profile whose point total is absent or 0, [totalPoints]
    stays as it was; a nonzero total replaces it. *)
Theorem syncProfile_ignores_zero_total :
  forall (x : Exchange (Envelope Profile)) (w : World),
    let w' := snd (syncProfile x w) in
    fst (syncProfile x w) = Ret tt /\
    (data_of (reply x) = None -> totalPoints (stats w') = totalPoints (stats w)) /\
    (forall p,
        data_of (reply x) = Some p ->
        profile_totalPoints p = None ->
        totalPoints (stats w') = totalPoints (stats w)) /\
    (forall p,
        data_of (reply x) = Some p ->
        profile_totalPoints p = Some 0 ->
        totalPoints (stats w') = totalPoints (stats w)) /\
    (forall p t,
        data_of (reply x) = Some p ->
        profile_totalPoints p = Some t ->
        t <> 0 ->
        totalPoints (stats w') = t).
Proof.
  intros x w w0. subst w0.
  destruct (syncProfile_run x w) as (w' & E & _ & _ & _ & _ & Hs).
  rewrite E. cbn [fst snd]. rewrite Hs.
  split; [reflexivity |].
  split; [| split; [| split]].
  - intros ->. reflexivity.
  - intros p -> ->. reflexivity.
  - intros p -> ->. reflexivity.
  - intros p t -> -> Hnz. cbn -[Z.eqb].
    destruct (Z.eqb_spec t 0); [contradiction | reflexivity].
Qed.

Lemma syncProfile_ignores_zero_total_witness :
  data_of (reply (profile_with 0)) = Some (mkProfile (Some 0)) /\
  totalPoints (stats (with_points 150 world_A)) = 150 /\
  totalPoints
    (stats (snd (syncProfile (profile_with 0) (with_points 150 world_A))))
    = 150.
Proof.
  split; [reflexivity |].
  split; [reflexivity |].
  destruct (syncProfile_ignores_zero_total
              (profile_with 0) (with_points 150 world_A))
    as (_ & _ & _ & Hzero & _).
  exact (Hzero (mkProfile (Some 0)) eq_refl eq_refl).
Defined.

(** Steps 1 to 3 do not touch [totalPoints]. *)
Lemma before_checkIn_points env w :
  totalPoints (stats (before_checkIn env w)) = totalPoints (stats w).
Proof.
  unfold before_checkIn, before_maintainIp.
  destruct (fetchStatus_run (device env) w)
    as (w1 & E1 & _ & _ & _ & _ & S1).
  rewrite (bind_ret _ _ w _ _ E1).
  destruct (refreshIps_run (active env) w1)
    as (w2 & E2 & (_ & S2 & _ & _) & _).
  rewrite E2. cbn [snd].
  destruct (maintainIp_run (scheduled env) w2) as (w3 & E3 & _ & _ & S3 & _).
  rewrite E3. cbn [snd].
  pose proof (f_equal totalPoints S3) as H3. cbn in H3.
  rewrite H3, S2, S1.
  destruct (data_of (reply (device env))) as [d |]; [| reflexivity].
  destruct (truthy_number (totalUptime d)); reflexivity.
Qed.

(** C6 (amended). In a cycle whose check-in succeeds with a response
    carrying [points = p], the check-in step adds [p] to [totalPoints];
    if the profile then fetched carries a nonzero total [t], the cycle
    ends with [totalPoints = t], whatever the delta was, and that is the
    value saved to the stats file. *)
Theorem cycle_points_delta_then_profile_total :
  forall (env : CycleEnv) (w : World) (p t : Z),
    latin1 (checkin env) = true ->
    reply (post (checkin env)) = Ok (Some (mkCheckinBody (Some p))) ->
    data_of (reply (profile env)) = Some (mkProfile (Some t)) ->
    t <> 0 ->
    let w' := snd (monitorAndMaintain env w) in
    totalPoints (stats (before_syncProfile env w)) = totalPoints (stats w) + p /\
    fst (monitorAndMaintain env w) = Ret tt /\
    totalPoints (stats w') = t /\
    (fsWritable w = true -> statsFile w' = Content (Json (stats w'))).
Proof.
  intros env w p t Hl Hp Hd Hnz w0. subst w0.
  rewrite monitorAndMaintain_run. cbn [fst snd].
  unfold before_syncProfile.
  destruct (checkIn_success (checkin env) (before_checkIn env w) _ Hl Hp)
    as (w4 & E4 & _ & F4 & _ & _ & _ & _ & P4 & _).
  rewrite E4. cbn [snd].
  destruct (syncProfile_run (profile env) w4)
    as (w5 & E5 & _ & _ & F5 & _ & S5).
  rewrite E5. cbn [snd].
  rewrite Hd in S5. cbn -[Z.eqb] in S5.
  destruct (Z.eqb_spec t 0); [contradiction |]. cbn in S5.
  split; [| split; [reflexivity | split]].
  - rewrite P4, before_checkIn_points. reflexivity.
  - rewrite persisted_stats, S5. reflexivity.
  - intros Hw. rewrite persisted_statsFile, persisted_stats.
    rewrite F5, F4, before_checkIn_writable, Hw. reflexivity.
Qed.

(** The scenario of the specification: 100 points before, a check-in
    worth 50, a profile reporting 500. *)
Lemma cycle_points_delta_then_profile_total_witness :
  totalPoints (stats (with_points 100 world_A)) = 100 /\
  totalPoints
    (stats (before_syncProfile (cycle_with 50 500) (with_points 100 world_A)))
    = 150 /\
  totalPoints
    (stats (snd (monitorAndMaintain (cycle_with 50 500)
                                    (with_points 100 world_A))))
    = 500 /\
  statsFile (snd (monitorAndMaintain (cycle_with 50 500)
                                     (with_points 100 world_A)))
    = Content (Json (stats (snd (monitorAndMaintain
                                   (cycle_with 50 500)
                                   (with_points 100 world_A))))).
Proof.
  split; [reflexivity |].
  destruct (cycle_points_delta_then_profile_total
              (cycle_with 50 500) (with_points 100 world_A) 50 500)
    as (Hdelta & _ & Htotal & Hfile).
  - reflexivity.
  - reflexivity.
  - reflexivity.
  - discriminate.
  - split; [exact Hdelta |]. split; [exact Htotal |].
    apply Hfile. reflexivity.
Defined.

(** C6 as stated fails: a profile that carries a point total of 0 does
    not overwrite; the cycle ends with the delta-adjusted 150. *)
Lemma cycle_zero_profile_total_keeps_delta :
  data_of (reply (profile (cycle_with 50 0))) = Some (mkProfile (Some 0)) /\
  totalPoints (stats (with_points 100 world_A)) = 100 /\
  totalPoints
    (stats (snd (monitorAndMaintain (cycle_with 50 0)
                                    (with_points 100 world_A))))
    = 150.
Proof.
  repeat split; vm_compute; reflexivity.
Qed.

(** * Further properties *)

(** ** Rate limiter: invariant and waiting time *)

(** One call from a state that satisfies [limiter_ok]. *)
Lemma waitForRateLimit_ok d w :
  limiter_ok w ->
  on_schedule d ->
  let w' := snd (waitForRateLimit d w) in
  limiter_ok w' /\
  1 <= requestCount (rateLimiter w') /\
  lastRequest (rateLimiter w') = clock w' /\
  clock w <= clock w' <= clock w + 30000 + over_quota d + over_interval d /\
  (30000 <= clock w - lastRequest (rateLimiter w) -> clock w' = clock w).
Proof.
  intros Hok [Hq Hi].
  destruct w as [ip st [lr mi rpm rc ms] av ck f rw wr].
  unfold limiter_ok, configured in *. js_cbn in Hok.
  destruct Hok as ((Hmi & Hrpm) & Hrc & Hms & Hlr & Hk). subst mi rpm.
  unfold waitForRateLimit, bind, when, get, Date_now, update_limiter,
    modify, sleep, log, ret.
  js_cbn.
  destruct (Z.ltb_spec 60000 (ck - ms)); js_cbn;
    match goal with
    | |- context [3 <=? ?c] => destruct (Z.leb_spec 3 c)
    end; js_cbn;
    destruct (Z.ltb_spec (ck - lr) 30000); js_cbn;
    repeat split; try reflexivity; try lia.
Qed.





(** X2. From such a state one call never blocks for more than the 30 s
    minimum interval plus the lateness of its timers (the per-minute
    branch, when taken, adds no waiting of its own), and it does not
    block at all when the last request is at least 30 s old. *)
Theorem waitForRateLimit_blocks_at_most_interval :
  forall (d : Delays) (w : World),
    limiter_ok w ->
    on_schedule d ->
    let w' := snd (waitForRateLimit d w) in
    clock w <= clock w' /\
    clock w' <= clock w + 30000 + over_quota d + over_interval d /\
    (30000 <= clock w - lastRequest (rateLimiter w) -> clock w' = clock w).
Proof.
  intros d w Hok Hd.
  pose proof (waitForRateLimit_ok d w Hok Hd) as H. cbv zeta in H |- *.
  destruct H as (_ & _ & _ & (Hlo & Hhi) & Hidle).
  repeat split; assumption.
Qed.

Lemma waitForRateLimit_blocks_at_most_interval_witness :
  limiter_ok world_A /\
  on_schedule on_time /\
  clock (snd (waitForRateLimit on_time world_A)) = clock world_A.
Proof.
  assert (Hok : limiter_ok world_A).
  { unfold limiter_ok, configured. js_cbn. repeat split; lia. }
  assert (Hd : on_schedule on_time) by (split; cbn; lia).
  split; [exact Hok |]. split; [exact Hd |].
  destruct (waitForRateLimit_blocks_at_most_interval on_time world_A Hok Hd)
    as (_ & _ & Hidle).
  apply Hidle. cbn. lia.
Defined.

(** ** Requests and the wrappers around them *)

(** A request from a configured limiter whose timers are not early is
    stamped at least 30 s after the stamp before it. *)
Lemma makeRequest_paced {B} m ep tok (x : Exchange B) :
  on_schedule (delays x) -> Keeps paced (makeRequest m ep tok x).
Proof.
  intros [Hq Hi] w Hc.
  pose proof (waitForRateLimit_step (delays x) w Hq Hi) as Hs.
  pose proof (waitForRateLimit_quiet (delays x) w) as (_ & Hw & _).
  cbv zeta in Hs. destruct Hs as (Em & Er & Hl & _).
  unfold makeRequest, bind.
  destruct (waitForRateLimit (delays x) w) as [[[] | e] w1];
    cbn [fst snd] in *.
  - unfold try_catch, bind, cloudscraper, log, ret, throw.
    destruct Hc as [Hm Hr]. rewrite Hm in Hl.
    destruct (reply x) as [b | e]; js_cbn;
      unfold configured; js_cbn;
      rewrite length_app, Hw; cbn [List.length];
      (split; [split; congruence |]); split; lia.
  - unfold configured. destruct Hc as [Hm Hr]. rewrite Hm in Hl.
    rewrite Hw. repeat split; try congruence; lia.
Qed.





(** ** A relation kept by every step *)

Section KeepsRules.

Context (R : World -> World -> Prop).
Context (R_refl : forall w, R w w).
Context (R_trans : forall a b c, R a b -> R b c -> R a c).

Lemma Keeps_ret {A} (a : A) : Keeps R (ret a).
Proof. intros w. apply R_refl. Qed.

Lemma Keeps_throw {A} (e : Error) : Keeps R (@throw A e).
Proof. intros w. apply R_refl. Qed.

Lemma Keeps_get : Keeps R get.
Proof. intros w. apply R_refl. Qed.

Lemma Keeps_Date_now : Keeps R Date_now.
Proof. intros w. apply R_refl. Qed.

Lemma Keeps_log l msg : Keeps R (log l msg).
Proof. intros w. apply R_refl. Qed.

Lemma Keeps_bind {A B} (c : M A) (k : A -> M B) :
  Keeps R c -> (forall a, Keeps R (k a)) -> Keeps R (bind c k).
Proof.
  intros Hc Hk w. unfold bind.
  specialize (Hc w). destruct (c w) as [[a | e] w1]; cbn [snd] in *.
  - eapply R_trans; [exact Hc | apply Hk].
  - exact Hc.
Qed.

Lemma Keeps_try_catch {A} (c : M A) (h : Error -> M A) :
  Keeps R c -> (forall e, Keeps R (h e)) -> Keeps R (try_catch c h).
Proof.
  intros Hc Hh w. unfold try_catch.
  specialize (Hc w). destruct (c w) as [[a | e] w1]; cbn [snd] in *.
  - exact Hc.
  - eapply R_trans; [exact Hc | apply Hh].
Qed.

Lemma Keeps_when b (c : M unit) : Keeps R c -> Keeps R (when b c).
Proof.
  intros Hc. unfold when. destruct b; [exact Hc | apply Keeps_ret].
Qed.

Lemma Keeps_modify (f : World -> World) :
  (forall w, R w (f w)) -> Keeps R (modify f).
Proof. intros Hf w. apply Hf. Qed.

End KeepsRules.

Lemma paced_refl w : paced w w.
Proof. intros Hc. repeat split; try apply Hc; lia. Qed.

Lemma paced_trans a b c : paced a b -> paced b c -> paced a c.
Proof.
  intros Hab Hbc Ha.
  destruct (Hab Ha) as (Hb & L1 & S1).
  destruct (Hbc Hb) as (Hc & L2 & S2).
  split; [exact Hc |]. split; lia.
Qed.

Lemma paced_untouched w w' :
  rateLimiter w' = rateLimiter w -> wire w' = wire w -> paced w w'.
Proof.
  intros Hr Hw Hc. unfold configured. rewrite Hr, Hw.
  repeat split; try apply Hc; lia.
Qed.

Lemma update_stats_paced f : Keeps paced (update_stats f).
Proof.
  apply Keeps_modify. intros w. apply paced_untouched; reflexivity.
Qed.

Lemma saveStats_paced : Keeps paced saveStats.
Proof.
  intros w. rewrite saveStats_run. cbn [snd].
  apply paced_untouched; unfold persisted;
    destruct (fsWritable w); reflexivity.
Qed.

(** Break a step down to requests, stats updates and saves. *)
Ltac paces :=
  repeat
    (intros;
     match goal with
     | |- Keeps paced (bind _ _) =>
         apply (Keeps_bind paced paced_trans)
     | |- Keeps paced (try_catch _ _) =>
         apply (Keeps_try_catch paced paced_trans)
     | |- Keeps paced (when _ _) => apply (Keeps_when paced paced_refl)
     | |- Keeps paced (ret _) => apply (Keeps_ret paced paced_refl)
     | |- Keeps paced (throw _) => apply (Keeps_throw paced paced_refl)
     | |- Keeps paced get => apply (Keeps_get paced paced_refl)
     | |- Keeps paced Date_now => apply (Keeps_Date_now paced paced_refl)
     | |- Keeps paced (log _ _) => apply (Keeps_log paced paced_refl)
     | |- Keeps paced (update_stats _) => apply update_stats_paced
     | |- Keeps paced saveStats => apply saveStats_paced
     | |- Keeps paced (modify _) =>
         apply Keeps_modify; intros; apply paced_untouched; reflexivity
     | |- Keeps paced (makeRequest _ _ _ _) =>
         apply makeRequest_paced; assumption
     | |- Keeps paced (match ?v with _ => _ end) => destruct v
     end).

Lemma getActiveIps_paced x :
  on_schedule (delays x) -> Keeps paced (getActiveIps x).
Proof. intros H. unfold getActiveIps. paces. Qed.

Lemma getUserProfile_paced x :
  on_schedule (delays x) -> Keeps paced (getUserProfile x).
Proof. intros H. unfold getUserProfile. paces. Qed.

Lemma getDeviceStatus_paced x :
  on_schedule (delays x) -> Keeps paced (getDeviceStatus x).
Proof. intros H. unfold getDeviceStatus. paces. Qed.

Lemma rotateIp_paced x :
  on_schedule (delays x) -> Keeps paced (rotateIp x).
Proof.
  intros H. unfold rotateIp. paces.
  apply getActiveIps_paced. exact H.
Qed.

Lemma checkIn_paced env :
  punctual_checkin env -> Keeps paced (checkIn env).
Proof.
  intros [Hp Hr]. unfold checkIn, checkIn_catch, generateCheckinToken.
  paces; apply rotateIp_paced; exact Hr.
Qed.

Lemma monitorAndMaintain_paced env :
  punctual env -> Keeps paced (monitorAndMaintain env).
Proof.
  intros (Hd & Ha & Hs & Hc & Hp).
  unfold monitorAndMaintain, fetchStatus, refreshIps, maintainIp,
    syncProfile.
  paces;
    first [ apply getDeviceStatus_paced; exact Hd
          | apply getActiveIps_paced; exact Ha
          | apply rotateIp_paced; exact Hs
          | apply checkIn_paced; exact Hc
          | apply getUserProfile_paced; exact Hp ].
Qed.

(** ** Check-in, in more detail *)


(** A check-in whose [try] block throws runs the [catch] block from a
    world that differs from the first in the attempt counted and, when
    the token was built, in the request sent. *)
Lemma checkIn_throws env w e :
  attempt_error env = Some e ->
  exists w1,
    checkIn env w = checkIn_catch env e w1 /\
    ipAddress w1 = ipAddress w /\
    stats w1 = set_totalCheckins (totalCheckins (stats w) + 1) (stats w) /\
    statsFile w1 = statsFile w /\
    fsWritable w1 = fsWritable w /\
    wire w1 =
      wire w ++
      (if latin1 env
       then [mkRequest POST Checkin
               (Some (mkToken (ipAddress w) (clock w / 1000 + 300)
                              (clock w / 1000) (clock w / 1000) (clock w)))]
       else []).
Proof.
  unfold attempt_error. intros He.
  unfold checkIn, try_catch, bind at 1.
  unfold update_stats at 1, modify at 1.
  unfold bind at 1, generateCheckinToken, bind at 1, Date_now at 1.
  unfold bind at 1, get at 1.
  destruct (latin1 env).
  - unfold ret at 1. unfold bind at 1.
    match goal with
    | |- context [makeRequest ?m ?ep ?tok ?x ?w0] =>
        destruct (makeRequest_run m ep tok x w0)
          as (w1 & E & (Q1 & Q2 & Q3 & Q4) & Hw & _);
        rewrite E
    end.
    destruct (reply (post env)) as [b | e']; [discriminate |].
    injection He as ->. unfold completion.
    exists w1. repeat split; assumption.
  - injection He as <-. unfold throw at 1.
    eexists. split; [reflexivity |].
    js_cbn. rewrite app_nil_r. repeat split; reflexivity.
Qed.

(** A check-in whose request is answered, as one equation. *)
Lemma checkIn_succeeds env w resp :
  latin1 env = true ->
  reply (post env) = Ok resp ->
  exists w1,
    ipAddress w1 = ipAddress w /\
    stats w1 = set_totalCheckins (totalCheckins (stats w) + 1) (stats w) /\
    statsFile w1 = statsFile w /\
    fsWritable w1 = fsWritable w /\
    wire w1 =
      wire w ++
      [mkRequest POST Checkin
         (Some (mkToken (ipAddress w) (clock w / 1000 + 300)
                        (clock w / 1000) (clock w / 1000) (clock w)))] /\
    checkIn env w =
      (Ret resp,
       persisted
         (with_stats
            (let s1 :=
               set_lastCheckin (Some (clock w1))
                 (set_successfulCheckins
                    (successfulCheckins (stats w1) + 1) (stats w1)) in
             match resp with
             | Some body =>
                 if truthy_number (points body)
                 then set_totalPoints
                        (totalPoints s1 + number_of (points body)) s1
                 else s1
             | None => s1
             end)
            w1)).
Proof.
  intros Hl Hp.
  unfold checkIn, try_catch, bind at 1.
  unfold update_stats at 1, modify at 1.
  unfold bind at 1, generateCheckinToken, bind at 1, Date_now at 1.
  unfold bind at 1, get at 1. rewrite Hl. unfold ret at 1.
  unfold bind at 1.
  match goal with
  | |- context [makeRequest ?m ?ep ?tok ?x ?w0] =>
      destruct (makeRequest_run m ep tok x w0)
        as (w1 & E & (Q1 & Q2 & Q3 & Q4) & Hw & _);
      rewrite E
  end.
  rewrite Hp. unfold completion.
  unfold bind, update_stats, modify, Date_now, log, ret, when.
  exists w1.
  split; [exact Q1 |]. split; [exact Q2 |]. split; [exact Q3 |].
  split; [exact Q4 |]. split; [exact Hw |].
  destruct resp as [body |]; js_cbn.
  - destruct (truthy_number (points body)); js_cbn;
      rewrite saveStats_run; reflexivity.
  - rewrite saveStats_run. reflexivity.
Qed.

(** The [catch] block rotates at most once, and counts it when it
    does. *)
Lemma checkIn_catch_rotation env e w :
  rotation_step w (snd (checkIn_catch env e w)).
Proof.
  unfold checkIn_catch, bind at 1, update_stats at 1, modify at 1.
  unfold bind at 1. rewrite saveStats_run.
  unfold bind, when, log, ret, rotation_step.
  destruct (rateLimited e); js_cbn.
  - match goal with
    | |- context [rotateIp ?x ?w0] =>
        destruct (rotateIp_run x w0)
          as (w1 & (Q1 & Q2 & Q3 & Q4) & Hw & E);
        cbv zeta in E; rewrite E;
        pose proof (candidate_differs (data_of (reply x)) (ipAddress w0))
          as Hd
    end.
    rewrite persisted_ipAddress, persisted_stats in *.
    js_cbn in Q1; js_cbn in Q2; js_cbn in Hd.
    destruct (truthy_string _); js_cbn.
    + right. split; [apply Hd; reflexivity | reflexivity].
    + left. rewrite Q1, Q2. split; reflexivity.
  - left. rewrite persisted_ipAddress, persisted_stats. split; reflexivity.
Qed.

Lemma checkIn_rotation env w :
  rotation_step w (snd (checkIn env w)).
Proof.
  destruct (attempt_error env) as [e |] eqn:E.
  - destruct (checkIn_throws env w e E) as (w1 & Ec & Q1 & Q2 & _).
    rewrite Ec.
    pose proof (checkIn_catch_rotation env e w1) as H.
    unfold rotation_step in *. rewrite Q1, Q2 in H. exact H.
  - destruct (attempt_error_none env E) as (Hl & resp & Hp).
    destruct (checkIn_success env w resp Hl Hp)
      as (w' & E' & Hi & _ & _ & _ & _ & _ & _ & _ & Hr & _).
    rewrite E'. left. split; assumption.
Qed.

Lemma checkIn_wire env w :
  wire (snd (checkIn env w)) =
  wire w ++
  (if latin1 env
   then [mkRequest POST Checkin
           (Some (mkToken (ipAddress w) (clock w / 1000 + 300)
                          (clock w / 1000) (clock w / 1000) (clock w)))]
   else []) ++
  match attempt_error env with
  | Some e => if rateLimited e then [mkRequest GET ActiveIps None] else []
  | None => []
  end.
Proof.
  destruct (attempt_error env) as [e |] eqn:E.
  - destruct (checkIn_throws env w e E) as (w1 & Ec & _ & _ & _ & _ & Hw).
    rewrite Ec.
    destruct (checkIn_catch_run env e w1) as (w' & E' & _ & _ & _ & Hw' & _).
    rewrite E'. cbn [snd]. rewrite Hw', Hw, app_assoc. reflexivity.
  - destruct (attempt_error_none env E) as (Hl & resp & Hp).
    destruct (checkIn_succeeds env w resp Hl Hp)
      as (w1 & _ & _ & _ & _ & Hw & Ec).
    rewrite Ec. cbn [snd]. rewrite persisted_wire. js_cbn.
    rewrite Hw, Hl, app_nil_r. reflexivity.
Qed.




(** ** The whole cycle *)

(** The worlds a cycle passes through. *)
Lemma cycle_chain env w :
  exists w1 w2 w3 w4 w5 r,
    fetchStatus (device env) w = (Ret tt, w1) /\
    refreshIps (active env) w1 = (Ret tt, w2) /\
    maintainIp (scheduled env) w2 = (Ret tt, w3) /\
    checkIn (checkin env) w3 = (Ret r, w4) /\
    syncProfile (profile env) w4 = (Ret tt, w5) /\
    before_maintainIp env w = w2 /\
    monitorAndMaintain env w = (Ret tt, persisted w5).
Proof.
  destruct (fetchStatus_run (device env) w) as (w1 & E1 & _).
  destruct (refreshIps_run (active env) w1) as (w2 & E2 & _).
  destruct (maintainIp_run (scheduled env) w2) as (w3 & E3 & _).
  destruct (checkIn_returns (checkin env) w3) as (r & w4 & E4 & _).
  destruct (syncProfile_run (profile env) w4) as (w5 & E5 & _).
  exists w1, w2, w3, w4, w5, r.
  repeat (split; [assumption |]).
  assert (Hb : before_maintainIp env w = w2).
  { unfold before_maintainIp.
    rewrite (bind_ret _ _ w _ _ E1), E2. reflexivity. }
  split; [exact Hb |].
  rewrite monitorAndMaintain_run.
  unfold before_syncProfile, before_checkIn.
  rewrite Hb, E3. cbn [snd]. rewrite E4. cbn [snd]. rewrite E5.
  reflexivity.
Qed.

(** Facts of a step, read at the world the chain names. *)
Ltac at_world E H :=
  let E' := fresh in
  let w' := fresh in
  destruct H as (w' & E' & H);
  rewrite E in E'; injection E' as <-.





(** Step 3 rotates at most once, and counts it when it does. *)
Lemma maintainIp_rotation x w :
  rotation_step w (snd (maintainIp x w)).
Proof.
  unfold maintainIp, bind at 1, Date_now at 1, bind at 1, get at 1, when,
    rotation_step.
  destruct (Qle_bool _ _).
  - unfold bind.
    destruct (rotateIp_run x w) as (w1 & (Q1 & Q2 & Q3 & Q4) & Hw & E).
    cbv zeta in E. rewrite E.
    pose proof (candidate_differs (data_of (reply x)) (ipAddress w)) as Hd.
    destruct (truthy_string _); unfold ret; js_cbn.
    + right. split; [apply Hd; reflexivity | reflexivity].
    + left. rewrite Q2. split; [exact Q1 | reflexivity].
  - left. unfold ret. cbn. split; reflexivity.
Qed.

(** X10. Over one cycle [ipRotations] never goes down and grows by at
    most 2 (the scheduled rotation of step 3 and the one after a
    rate-limited check-in).  When it did not grow the configured address
    is the one the cycle started with, and when it grew by exactly one
    the address is a different one. *)
Theorem cycle_rotates_at_most_twice :
  forall (env : CycleEnv) (w : World),
    let w' := snd (monitorAndMaintain env w) in
    ipRotations (stats w) <= ipRotations (stats w') <=
      ipRotations (stats w) + 2 /\
    (ipRotations (stats w') = ipRotations (stats w) ->
     ipAddress w' = ipAddress w) /\
    (ipRotations (stats w') = ipRotations (stats w) + 1 ->
     ipAddress w' <> ipAddress w).
Proof.
  intros env w w'. subst w'.
  destruct (cycle_chain env w)
    as (w1 & w2 & w3 & w4 & w5 & r & E1 & E2 & E3 & E4 & E5 & _ & E).
  rewrite E. cbn [snd]. rewrite persisted_stats, persisted_ipAddress.
  pose proof (fetchStatus_run (device env) w) as H1. at_world E1 H1.
  pose proof (refreshIps_run (active env) w1) as H2. at_world E2 H2.
  pose proof (syncProfile_run (profile env) w4) as H5. at_world E5 H5.
  pose proof (maintainIp_rotation (scheduled env) w2) as H3.
  rewrite E3 in H3. cbn [snd] in H3.
  pose proof (checkIn_rotation (checkin env) w3) as H4.
  rewrite E4 in H4. cbn [snd] in H4.
  destruct H1 as (I1 & _ & _ & _ & S1).
  destruct H2 as ((I2 & S2 & _) & _).
  destruct H5 as (I5 & _ & _ & _ & S5).
  assert (R1 : ipRotations (stats w1) = ipRotations (stats w)).
  { rewrite S1. destruct (data_of (reply (device env))) as [d |];
      [destruct (truthy_number (totalUptime d)) |]; reflexivity. }
  assert (R5 : ipRotations (stats w5) = ipRotations (stats w4)).
  { rewrite S5. destruct (data_of (reply (profile env))) as [p |];
      [destruct (truthy_number (profile_totalPoints p)) |]; reflexivity. }
  unfold rotation_step in H3, H4.
  rewrite S2, I2, R1, I1 in H3.
  rewrite R5, I5.
  destruct H3 as [[A3 B3] | [A3 B3]], H4 as [[A4 B4] | [A4 B4]];
    (split; [lia |]); split; intros Hr; try lia; congruence.
Qed.

(** The requests of one cycle, in the order sent. *)
Lemma cycle_wire env w :
  wire (snd (monitorAndMaintain env w)) =
  wire w ++
  [mkRequest GET RetrieveDevice None; mkRequest GET ActiveIps None] ++
  (if Qle_bool (inject_Z 12)
        (hoursSinceLastRotation (clock (before_maintainIp env w))
                                (stats (before_maintainIp env w)))
   then [mkRequest GET ActiveIps None]
   else []) ++
  (if latin1 (checkin env)
   then [mkRequest POST Checkin
           (Some (mkToken (ipAddress (before_checkIn env w))
                          (clock (before_checkIn env w) / 1000 + 300)
                          (clock (before_checkIn env w) / 1000)
                          (clock (before_checkIn env w) / 1000)
                          (clock (before_checkIn env w))))]
   else []) ++
  match attempt_error (checkin env) with
  | Some e => if rateLimited e then [mkRequest GET ActiveIps None] else []
  | None => []
  end ++
  [mkRequest GET RetrieveUser None].
Proof.
  destruct (cycle_chain env w)
    as (w1 & w2 & w3 & w4 & w5 & r & E1 & E2 & E3 & E4 & E5 & Hb & E).
  rewrite E. cbn [snd]. rewrite persisted_wire.
  assert (Hc : before_checkIn env w = w3).
  { unfold before_checkIn. rewrite Hb, E3. reflexivity. }
  rewrite Hb, Hc.
  pose proof (fetchStatus_run (device env) w) as H1. at_world E1 H1.
  pose proof (refreshIps_run (active env) w1) as H2. at_world E2 H2.
  pose proof (maintainIp_run (scheduled env) w2) as H3. at_world E3 H3.
  pose proof (syncProfile_run (profile env) w4) as H5. at_world E5 H5.
  pose proof (checkIn_wire (checkin env) w3) as W4.
  rewrite E4 in W4. cbn [snd] in W4.
  destruct H1 as (_ & _ & _ & W1 & _).
  destruct H2 as (_ & W2).
  destruct H3 as (_ & _ & _ & W3).
  destruct H5 as (_ & _ & _ & W5 & _).
  rewrite W5, W4, W3, W2, W1.
  repeat rewrite <- app_assoc. reflexivity.
Qed.

(** X11. One cycle sends its requests in a fixed order: GET
    /retrieveDevice, GET /activeIps, a second GET /activeIps exactly
    when step 3 attempts a rotation, the POST /checkin when its token
    could be built, a further GET /activeIps exactly when the check-in
    failed with a rate-limit error, and GET /retrieveUser last; between
    3 and 6 requests in all.  The check-in token names as audience the
    address configured after step 3, so a rotation made in step 3 is
    already in force for the check-in. *)
Theorem cycle_request_sequence :
  forall (env : CycleEnv) (w : World),
    exists tok : Token,
      aud tok = ipAddress (before_checkIn env w) /\
      sent_since w (snd (monitorAndMaintain env w)) =
        [mkRequest GET RetrieveDevice None; mkRequest GET ActiveIps None] ++
        (if Qle_bool (inject_Z 12)
              (hoursSinceLastRotation (clock (before_maintainIp env w))
                                      (stats (before_maintainIp env w)))
         then [mkRequest GET ActiveIps None]
         else []) ++
        (if latin1 (checkin env)
         then [mkRequest POST Checkin (Some tok)]
         else []) ++
        match attempt_error (checkin env) with
        | Some e =>
            if rateLimited e then [mkRequest GET ActiveIps None] else []
        | None => []
        end ++
        [mkRequest GET RetrieveUser None] /\
      (3 <= List.length (sent_since w (snd (monitorAndMaintain env w)))
         <= 6)%nat.
Proof.
  intros env w.
  eexists (mkToken _ _ _ _ _). split; [reflexivity |].
  rewrite (sent_since_app _ _ _ (cycle_wire env w)).
  split; [reflexivity |].
  unfold attempt_error.
  destruct (Qle_bool _ _); destruct (latin1 (checkin env));
    try destruct (reply (post (checkin env))) as [b | e];
    try destruct (rateLimited _); cbn; lia.
Qed.

(** X12. With a configured limiter and timers that do not fire early,
    the limiter's stamp moves on by at least 30 s for every request a
    cycle sends, whatever the replies are: after the cycle
    [lastRequest] is at least 30 s times the number of requests sent
    later than before it, hence at least 90 s later. *)
Theorem cycle_requests_are_paced :
  forall (env : CycleEnv) (w : World),
    configured w ->
    punctual env ->
    let w' := snd (monitorAndMaintain env w) in
    configured w' /\
    lastRequest (rateLimiter w)
      + 30000 * Z.of_nat (List.length (sent_since w w'))
      <= lastRequest (rateLimiter w') /\
    lastRequest (rateLimiter w) + 90000 <= lastRequest (rateLimiter w').
Proof.
  intros env w Hc Hp w'. subst w'.
  destruct (monitorAndMaintain_paced env Hp w Hc) as (Hc' & Hlen & Hl).
  assert (Hn : (3 <= List.length
                       (sent_since w (snd (monitorAndMaintain env w))))%nat).
  { rewrite (sent_since_app _ _ _ (cycle_wire env w)).
    unfold attempt_error.
    destruct (Qle_bool _ _); destruct (latin1 (checkin env));
      try destruct (reply (post (checkin env))) as [b | e];
      try destruct (rateLimited _); cbn; lia. }
  unfold sent_since in *. rewrite length_skipn in *.
  split; [exact Hc' |]. split; lia.
Qed.

Lemma cycle_requests_are_paced_witness :
  configured world_A /\
  punctual (cycle_with 50 500) /\
  lastRequest (rateLimiter world_A) + 90000
    <= lastRequest
         (rateLimiter (snd (monitorAndMaintain (cycle_with 50 500) world_A))).
Proof.
  assert (Hc : configured world_A) by (split; reflexivity).
  assert (Hp : punctual (cycle_with 50 500)).
  { unfold punctual, punctual_checkin, on_schedule. cbn.
    repeat split; lia. }
  destruct (cycle_requests_are_paced (cycle_with 50 500) world_A Hc Hp)
    as (_ & _ & H).
  split; [exact Hc |]. split; [exact Hp | exact H].
Defined.

(** ** Log filter *)

(** X13. [log] writes a message exactly when the number of its level is
    at most the number of the configured level.  So a [LOG_LEVEL] that
    is none of the four lower-case names silences every message, errors
    included; with one of the four names errors are always written, and
    what is written at one level is written at every more severe level;
    an unset or empty [LOG_LEVEL] behaves as [info]. *)
Theorem log_filter_by_level :
  forall LOG_LEVEL : option string,
    (levels (logLevel LOG_LEVEL) = None ->
     forall l, log_enabled l LOG_LEVEL = false) /\
    (levels (logLevel LOG_LEVEL) <> None ->
     log_enabled error LOG_LEVEL = true) /\
    (forall l1 l2 a b,
        levels (level_name l1) = Some a ->
        levels (level_name l2) = Some b ->
        a <= b ->
        log_enabled l2 LOG_LEVEL = true ->
        log_enabled l1 LOG_LEVEL = true) /\
    (LOG_LEVEL = None \/ LOG_LEVEL = Some ""%string ->
     forall l, log_enabled l LOG_LEVEL = log_enabled l (Some "info"%string)).
Proof.
  intros cfg. unfold log_enabled.
  split; [| split; [| split]].
  - intros ->. intros l. destruct (levels (level_name l)); reflexivity.
  - destruct (levels (logLevel cfg)) as [n |] eqn:E; [| congruence].
    intros _. cbn -[Z.leb].
    unfold levels in E.
    repeat match type of E with
           | (if ?c then _ else _) = _ => destruct c
           end; inversion E; reflexivity.
  - intros l1 l2 a b -> ->.
    destruct (levels (logLevel cfg)) as [n |]; [| discriminate].
    intros Hab Hb. apply Z.leb_le. apply Z.leb_le in Hb. lia.
  - intros [-> | ->]; reflexivity.
Qed.

Lemma log_filter_by_level_witness :
  levels (logLevel (Some "INFO"%string)) = None /\
  log_enabled error (Some "INFO"%string) = false /\
  log_enabled error (Some "debug"%string) = true /\
  log_enabled debug None = false.
Proof.
  split; [reflexivity |].
  destruct (log_filter_by_level (Some "INFO"%string)) as (Hsilent & _).
  split; [exact (Hsilent eq_refl error) |].
  destruct (log_filter_by_level (Some "debug"%string)) as (_ & Herr & _).
  split; [apply Herr; discriminate | reflexivity].
Defined.

(** ** Stats across a restart *)



(** ** Start-up *)

Lemma start_run parsed valid env w :
  start parsed valid env w =
  if valid (intervalMinutes parsed)
  then (Ret tt, snd (monitorAndMaintain env w))
  else (Throw (mkError None "pattern is a invalid expression"), w).
Proof.
  unfold start, bind at 1, log at 1, ret at 1.
  unfold bind at 1, cron_schedule.
  destruct (valid (intervalMinutes parsed)).
  - unfold ret at 1. unfold bind. rewrite monitorAndMaintain_run.
    reflexivity.
  - reflexivity.
Qed.

(** X15. [start] schedules before it runs anything: when [cron.schedule]
    rejects the expression, [start] throws with no request sent and no
    state changed; otherwise it runs exactly one monitoring cycle and
    returns.  The interval it schedules with is never 0: a missing or
    unparsable [CHECK_INTERVAL_MINUTES], and 0 itself, give 5. *)
Theorem start_schedules_then_runs_one_cycle :
  forall (parsed : option Z) (valid : Z -> bool) (env : CycleEnv)
         (w : World),
    let n := intervalMinutes parsed in
    (valid n = true ->
     start parsed valid env w = (Ret tt, snd (monitorAndMaintain env w))) /\
    (valid n = false ->
     exists e, start parsed valid env w = (Throw e, w)) /\
    n <> 0 /\
    (parsed = None \/ parsed = Some 0 -> n = 5) /\
    (forall k, parsed = Some k -> k <> 0 -> n = k).
Proof.
  intros parsed valid env w n. subst n.
  rewrite start_run.
  split; [| split; [| split; [| split]]].
  - intros ->. reflexivity.
  - intros ->. eexists. reflexivity.
  - unfold intervalMinutes. destruct parsed as [k |]; [| discriminate].
    destruct (Z.eqb_spec k 0); [discriminate | assumption].
  - intros [-> | ->]; reflexivity.
  - intros k -> Hk. unfold intervalMinutes.
    destruct (Z.eqb_spec k 0); [contradiction | reflexivity].
Qed.

Lemma start_schedules_then_runs_one_cycle_witness :
  intervalMinutes (Some (-3)) = -3 /\
  (exists e,
      start (Some (-3)) (fun n => 0 <? n) (cycle_with 50 500) world_A
      = (Throw e, world_A)) /\
  fst (start None (fun n => 0 <? n) (cycle_with 50 500) world_A) = Ret tt.
Proof.
  split; [reflexivity |].
  split.
  - destruct (start_schedules_then_runs_one_cycle
                (Some (-3)) (fun n => 0 <? n) (cycle_with 50 500) world_A)
      as (_ & Hbad & _).
    apply Hbad. reflexivity.
  - destruct (start_schedules_then_runs_one_cycle
                None (fun n => 0 <? n) (cycle_with 50 500) world_A)
      as (Hok & _).
    rewrite Hok; reflexivity.
Defined.

(** [main] never rejects: it resolves, or its [catch] block ends the
    process with status 1. *)
Lemma main_ending ip b outside :
  fst (main ip b outside) =
  if boot_valid b (intervalMinutes (boot_parsed b))
  then Resolved
  else Exited 1.
Proof.
  unfold main. rewrite start_run.
  destruct (boot_valid b (intervalMinutes (boot_parsed b))); reflexivity.
Qed.

(** X16. [startWithRetry] never retries.  Because [main] catches its own
    failure and exits the process with status 1, the retry branch of
    the loop is never reached: for any retry budget of at least one,
    [main] is called exactly once, no retry delay is ever slept, and the
    process exits with status 1 exactly when that one start-up failed.
    With a budget of zero [main] is not called at all. *)
Theorem startWithRetry_never_retries :
  forall (budget : nat) (delay : Z) (DEFAULT_IP : option string)
         (boots : nat -> Boot) (outside : World),
    fst (startWithRetry (S budget) delay DEFAULT_IP boots outside) =
      MainCalled 0 ::
      (if boot_valid (boots 0%nat)
                     (intervalMinutes (boot_parsed (boots 0%nat)))
       then []
       else [ProcessExit 1]) /\
    fst (startWithRetry 0 delay DEFAULT_IP boots outside) = [].
Proof.
  intros budget delay ip boots outside.
  split; [| reflexivity].
  unfold startWithRetry. cbn [retry_from].
  pose proof (main_ending ip (boots 0%nat) outside) as H.
  destruct (main ip (boots 0%nat) outside) as [[| e | code] w'];
    cbn [fst] in H;
    destruct (boot_valid (boots 0%nat) _);
    try discriminate; try reflexivity.
  injection H as ->. reflexivity.
Qed.

Example startWithRetry_default_budget :
  fst (startWithRetry 3 5000 (Some "A"%string) (fun _ => boot_bad_cron)
                      world_A)
  = [MainCalled 0; ProcessExit 1] /\
  fst (startWithRetry 3 5000 (Some "A"%string) (fun _ => boot_fine) world_A)
  = [MainCalled 0].
Proof. split; vm_compute; reflexivity. Qed.
